(** * pytube: search sessions and live metadata

    A shallow embedding of [pytube/contrib/search.py] (class [Search]) and
    [pytube/metadata.py] (class [YouTubeMetadata]).

    Modelling conventions.
    - A decoded JSON document is a [json] value.  Python's [None] is [JNull];
      a dict is an association list in insertion order whose lookups read the
      first binding of a key.  JSON numbers are integers here (no claim
      depends on a fractional number).
    - A Python [str] is a [string]; each character stands for one code point
      below 256.
    - A raised exception is a [Raise e] result.  Stateful methods run in the
      monad [Py]: an exception leaves the session as mutated so far, exactly
      as an uncaught Python exception does.
    - The InnerTube client is outside this repository: it is an arbitrary
      function of the query, the filter, the continuation and the number of
      calls made before, returning a document or raising.
    - [YouTube(url)] and [Channel(url)] are constructors of the pytube
      package that are not part of these two files: whether they accept a
      URL or raise is a parameter of the embedding ([Environment]), and so
      is the limit [int] puts on the number of digits.  The formatted URL
      is kept symbolic. *)

From Stdlib Require Import ZArith Ascii String List Lia DecimalNat DecimalString.
From stdpp Require Import base option list strings gmap.

Local Open Scope string_scope.
Local Open Scope list_scope.
#[local] Set Warnings "-register-all".

(** ** Exceptions and results *)

Inductive exn : Type :=
| KeyError
| IndexError
| TypeError
| ValueError
| AttributeError
| ClientError (what : string)
| PytubeError (name : string).

Inductive res (A : Type) : Type :=
| OK (x : A)
| Raise (e : exn).
Arguments OK {A} x.
Arguments Raise {A} e.

Definition res_bind {A B : Type} (r : res A) (k : A -> res B) : res B :=
  match r with
  | OK x => k x
  | Raise e => Raise e
  end.

Notation "'let?' x := r 'in' k" := (res_bind r (fun x => k))
  (at level 10, x pattern, r at level 100, k at level 200).

Definition is_ok {A : Type} (r : res A) : bool :=
  match r with OK _ => true | Raise _ => false end.

(** ** JSON values as Python sees them *)

Inductive json : Type :=
| JNull
| JBool (b : bool)
| JNum (n : Z)
| JStr (s : string)
| JList (l : list json)
| JDict (d : list (string * json)).

(** [bool(v)] *)
Definition truthy (v : json) : bool :=
  match v with
  | JNull => false
  | JBool b => b
  | JNum n => negb (n =? 0)%Z
  | JStr s => negb (String.eqb s "")
  | JList l => match l with [] => false | _ => true end
  | JDict d => match d with [] => false | _ => true end
  end.

Fixpoint assoc (k : string) (d : list (string * json)) : option json :=
  match d with
  | [] => None
  | (k', v) :: d' => if String.eqb k k' then Some v else assoc k d'
  end.

Fixpoint is_substring (p s : string) : bool :=
  match s with
  | EmptyString => String.eqb p ""
  | String _ s' => String.prefix p s || is_substring p s'
  end.

Definition is_jstr (k : string) (v : json) : bool :=
  match v with JStr s => String.eqb k s | _ => false end.

(** [k in v] for a string literal [k] *)
Definition py_in (k : string) (v : json) : res bool :=
  match v with
  | JDict d => OK (bool_decide (is_Some (assoc k d)))
  | JList l => OK (existsb (is_jstr k) l)
  | JStr s => OK (is_substring k s)
  | _ => Raise TypeError
  end.

(** [v[k]] for a string literal [k] *)
Definition py_getitem (v : json) (k : string) : res json :=
  match v with
  | JDict d => match assoc k d with Some x => OK x | None => Raise KeyError end
  | _ => Raise TypeError
  end.

(** [v[0]] *)
Definition py_first (v : json) : res json :=
  match v with
  | JList l => match l with x :: _ => OK x | [] => Raise IndexError end
  | JStr s => match s with
              | String c _ => OK (JStr (String c ""))
              | EmptyString => Raise IndexError
              end
  | JDict _ => Raise KeyError
  | _ => Raise TypeError
  end.

(** [v.get(k, default)]: only dicts have the method *)
Definition py_get (v : json) (k : string) (default : json) : res json :=
  match v with
  | JDict d => OK (match assoc k d with Some x => x | None => default end)
  | _ => Raise AttributeError
  end.

Fixpoint chars (s : string) : list json :=
  match s with
  | EmptyString => []
  | String c s' => JStr (String c "") :: chars s'
  end.

(** the items a [for] loop over [v] visits *)
Definition py_iter (v : json) : res (list json) :=
  match v with
  | JList l => OK l
  | JDict d => OK (map (fun kv => JStr (fst kv)) d)
  | JStr s => OK (chars s)
  | _ => Raise TypeError
  end.

(** One step of a subscript chain. *)
Inductive step : Type :=
| Key (k : string)
| First.

Definition py_step (v : json) (st : step) : res json :=
  match st with
  | Key k => py_getitem v k
  | First => py_first v
  end.

(** [v[s1][s2]...[sn]], evaluated left to right *)
Fixpoint py_path (v : json) (p : list step) : res json :=
  match p with
  | [] => OK v
  | st :: p' => let? x := py_step v st in py_path x p'
  end.

(** ** Search results *)

Inductive Params : Type :=
| FILTER_CHANNEL
| FILTER_PLAYLIST
| FILTER_VIDEO
| FILTER_MOVIE.

Definition Params_value (p : Params) : string :=
  match p with
  | FILTER_CHANNEL => "EgIQAg%3D%3D"
  | FILTER_PLAYLIST => "EgIQAw%3D%3D"
  | FILTER_VIDEO => "EgIQAQ%3D%3D"
  | FILTER_MOVIE => "EgIQBA%3D%3D"
  end.

(** The two f-strings: [https://www.youtube.com/watch?v={id}] and
    [https://www.youtube.com/channel/{channel_id}]. *)
Inductive Url : Type :=
| WatchUrl (id : json)
| ChannelUrl (channel_id : json).

Record YouTube : Type := mkYouTube
  { watch_url : Url; author : json; title : json }.

Record Channel : Type := mkChannel { channel_url : Url }.

Inductive result : Type :=
| Video (v : YouTube)
| Chan (c : Channel).

(** the [metadata] dict of [_parse_video] *)
Record video_metadata : Type := mkMetadata
  { md_id : json;
    md_url : Url;
    md_title : json;
    md_channel_name : json;
    md_channel_url : json;
    md_view_count : Z;
    md_length : json }.

(** ** What the surrounding Python provides

    [YouTube(url)] and [Channel(url)] belong to the pytube package, not to
    the two embedded files: each call either accepts the URL or raises one
    of the package's exceptions, named by the string.  [int] refuses a
    literal with more digits than [sys.get_int_max_str_digits()] allows,
    zero meaning no limit.  The three are parameters of the embedding. *)
Class Environment : Type := mkEnvironment
  { YouTube_rejects : Url -> option string;
    Channel_rejects : Url -> option string;
    int_max_str_digits : nat }.

(** ** The string methods used on the view-count text *)

Definition is_space (c : ascii) : bool :=
  let n := N_of_ascii c in
  ((9 <=? n) && (n <=? 13) || (28 <=? n) && (n <=? 32)
   || (n =? 133) || (n =? 160))%N.

Definition snoc (w : string) (c : ascii) : string := w +:+ String c "".

(** [s.split()]: the maximal runs of non-whitespace characters; [cur] is the
    run being read *)
Fixpoint split_from (cur : string) (s : string) : list string :=
  match s with
  | EmptyString => if String.eqb cur "" then [] else [cur]
  | String c s' =>
      if is_space c
      then (if String.eqb cur "" then split_from "" s'
            else cur :: split_from "" s')
      else split_from (snoc cur c) s'
  end.

Definition py_split (s : string) : list string := split_from "" s.

(** [s.replace(',', '')] *)
Fixpoint remove_commas (s : string) : string :=
  match s with
  | EmptyString => EmptyString
  | String c s' =>
      if Ascii.eqb c "," then remove_commas s' else String c (remove_commas s')
  end.

Definition digit_of (c : ascii) : option Z :=
  let n := N_of_ascii c in
  if ((48 <=? n) && (n <=? 57))%N then Some (Z.of_N n - 48)%Z else None.

(** the digit part of an integer literal: digits, single underscores allowed
    between two digits *)
Fixpoint digits_value (after_digit : bool) (acc : Z) (s : string) : option Z :=
  match s with
  | EmptyString => if after_digit then Some acc else None
  | String c s' =>
      match digit_of c with
      | Some d => digits_value true (10 * acc + d)%Z s'
      | None =>
          if Ascii.eqb c "_" && after_digit
          then digits_value false acc s'
          else None
      end
  end.

Fixpoint lstrip (s : string) : string :=
  match s with
  | String c s' => if is_space c then lstrip s' else s
  | EmptyString => EmptyString
  end.

Fixpoint rstrip (s : string) : string :=
  match s with
  | String c s' =>
      let kept := rstrip s' in
      if String.eqb kept "" && is_space c then EmptyString else String c kept
  | EmptyString => EmptyString
  end.

Fixpoint count_digits (s : string) : nat :=
  match s with
  | EmptyString => O
  | String c s' =>
      match digit_of c with
      | Some _ => S (count_digits s')
      | None => count_digits s'
      end
  end.

Section Reading.

Context {env : Environment}.

(** the test [int] makes on the number of digits of a literal: only above
    640 digits, and only when a limit is set *)
Definition too_many_digits (digits : nat) : bool :=
  (640 <? digits)%nat && (0 <? int_max_str_digits)%nat
  && (int_max_str_digits <? digits)%nat.

(** [int(s)] in base ten: surrounding whitespace, an optional sign, digits;
    a literal that is malformed or too long raises [ValueError] *)
Definition py_int (s : string) : res Z :=
  let body := rstrip (lstrip s) in
  let signed :=
    match body with
    | String "-" t => option_map Z.opp (digits_value false 0%Z t)
    | String "+" t => digits_value false 0%Z t
    | _ => digits_value false 0%Z body
    end in
  match signed with
  | Some n =>
      if too_many_digits (count_digits body) then Raise ValueError else OK n
  | None => Raise ValueError
  end.

(** [text.split()[0].replace(',', '')] followed by the ["No"] test and [int] *)
Definition view_count_of_text (view_count_text : json) : res Z :=
  match view_count_text with
  | JStr t =>
      match py_split t with
      | [] => Raise IndexError
      | w :: _ =>
          let stripped_text := remove_commas w in
          if String.eqb stripped_text "No" then OK 0%Z
          else py_int stripped_text
      end
  | _ => Raise AttributeError
  end.

(** ** Reading a video or channel entry *)

Definition owner_run : list step := [Key "ownerText"; Key "runs"; First].

(** lines 99-111 of [_parse_video] *)
Definition view_count (renderer : json) : res Z :=
  let? has_count := py_in "viewCountText" renderer in
  if has_count then
    let? view_count_text_field := py_getitem renderer "viewCountText" in
    let? has_runs := py_in "runs" view_count_text_field in
    let? view_count_text :=
      (if has_runs
       then py_path view_count_text_field [Key "runs"; First; Key "text"]
       else py_getitem view_count_text_field "simpleText") in
    view_count_of_text view_count_text
  else OK 0%Z.

Definition video_length (renderer : json) : res json :=
  let? has_length := py_in "lengthText" renderer in
  if has_length then py_path renderer [Key "lengthText"; Key "simpleText"]
  else OK JNull.

Definition video_details_metadata (video_details : json) : res video_metadata :=
  let? renderer := py_getitem video_details "videoRenderer" in
  let? id := py_getitem renderer "videoId" in
  let url := WatchUrl id in
  let? title := py_path renderer [Key "title"; Key "runs"; First; Key "text"] in
  let? channel_name := py_path renderer (owner_run ++ [Key "text"])%list in
  let? channel_uri :=
    py_path renderer
      (owner_run ++ [Key "navigationEndpoint"; Key "commandMetadata";
                     Key "webCommandMetadata"; Key "url"])%list in
  let? view_count := view_count renderer in
  let? length := video_length renderer in
  OK (mkMetadata id url title channel_name channel_uri view_count length).

(** a call of a constructor of the package: the object, unless the
    constructor raises *)
Definition construct {A : Type} (rejected : option string) (object : A)
  : res A :=
  match rejected with
  | Some name => Raise (PytubeError name)
  | None => OK object
  end.

Definition _parse_video (video_details : json) : res YouTube :=
  let? metadata := video_details_metadata video_details in
  construct (YouTube_rejects (md_url metadata))
    (mkYouTube (md_url metadata) (md_channel_name metadata)
       (md_title metadata)).

Definition _parse_channel (channel_details : json) : res Channel :=
  let? renderer := py_getitem channel_details "channelRenderer" in
  let? channel_id := py_getitem renderer "channelId" in
  construct (Channel_rejects (ChannelUrl channel_id))
    (mkChannel (ChannelUrl channel_id)).

End Reading.

(** ** The session object and its environment *)

Record Search : Type := mkSearch
  { query : string;
    param : option Params;
    _initial_results : json;
    _results : option (list result);
    _completion_suggestions : json;
    _current_continuation : json }.

(** [Search.__init__] *)
Definition Search_init (query : string) (param : option Params) : Search :=
  mkSearch query param JNull None JNull JNull.

(** the records [logger.warning] receives in the fall-through branch *)
Inductive warning : Type :=
| Unexpected_renderer
| Renderer_name (keys : list string)
| Search_term (query : string)
| Please_open_issue.

(** [calls] lists the continuation argument of every client call made so
    far, oldest first. *)
Record state : Type := mkState
  { self : Search;
    calls : list json;
    warnings : list warning }.

Definition fresh (query : string) (param : option Params) : state :=
  mkState (Search_init query param) [] [].

Definition client : Type := string -> option Params -> json -> nat -> res json.

Definition Py (A : Type) : Type := state -> res A * state.

Definition ret {A : Type} (x : A) : Py A := fun st => (OK x, st).

Definition raise {A : Type} (e : exn) : Py A := fun st => (Raise e, st).

Definition bind {A B : Type} (m : Py A) (k : A -> Py B) : Py B :=
  fun st =>
    match m st with
    | (OK x, st') => k x st'
    | (Raise e, st') => (Raise e, st')
    end.

Notation "'do' x <- m ; k" := (bind m (fun x => k))
  (at level 10, x pattern, m at level 100, k at level 200).

Definition lift {A : Type} (r : res A) : Py A := fun st => (r, st).

Definition read {A : Type} (f : Search -> A) : Py A :=
  fun st => (OK (f (self st)), st).

Definition update (f : Search -> Search) : Py unit :=
  fun st => (OK tt, mkState (f (self st)) (calls st) (warnings st)).

Definition set_initial_results (v : json) (s : Search) : Search :=
  mkSearch (query s) (param s) v (_results s)
           (_completion_suggestions s) (_current_continuation s).

Definition set_results (v : option (list result)) (s : Search) : Search :=
  mkSearch (query s) (param s) (_initial_results s) v
           (_completion_suggestions s) (_current_continuation s).

Definition set_completion_suggestions (v : json) (s : Search) : Search :=
  mkSearch (query s) (param s) (_initial_results s) (_results s)
           v (_current_continuation s).

Definition set_current_continuation (v : json) (s : Search) : Search :=
  mkSearch (query s) (param s) (_initial_results s) (_results s)
           (_completion_suggestions s) v.

Definition warn (w : warning) : Py unit :=
  fun st => (OK tt, mkState (self st) (calls st) (warnings st ++ [w])%list).

(** truth value of a [None]-or-list attribute *)
Definition truthy_list {A : Type} (v : option (list A)) : bool :=
  match v with
  | Some (_ :: _) => true
  | _ => false
  end.

Definition dict_keys (v : json) : list string :=
  match v with
  | JDict d => map fst d
  | _ => []
  end.

Definition initial_path : list step :=
  [Key "contents"; Key "twoColumnSearchResultsRenderer";
   Key "primaryContents"; Key "sectionListRenderer"; Key "contents"].

Definition continuation_path : list step :=
  [Key "onResponseReceivedCommands"; First;
   Key "appendContinuationItemsAction"; Key "continuationItems"].

(** the [try]/[except KeyError] of [fetch_and_parse] *)
Definition locate_sections (raw_results : json) : res json :=
  match py_path raw_results initial_path with
  | Raise KeyError => py_path raw_results continuation_path
  | r => r
  end.

(** body of the loop over [sections]; the pair is
    [(item_renderer, continuation_renderer)] *)
Definition scan_section (found : json * json) (s : json) : res (json * json) :=
  let? has_items := py_in "itemSectionRenderer" s in
  let? item_renderer :=
    (if has_items then py_getitem s "itemSectionRenderer" else OK (fst found)) in
  let? has_continuation := py_in "continuationItemRenderer" s in
  let? continuation_renderer :=
    (if has_continuation then py_getitem s "continuationItemRenderer"
     else OK (snd found)) in
  OK (item_renderer, continuation_renderer).

Fixpoint scan_sections (found : json * json) (sections : list json)
  : res (json * json) :=
  match sections with
  | [] => OK found
  | s :: rest => let? found' := scan_section found s in scan_sections found' rest
  end.

Definition token_path : list step :=
  [Key "continuationEndpoint"; Key "continuationCommand"; Key "token"].

Definition next_continuation_of (continuation_renderer : json) : res json :=
  if truthy continuation_renderer
  then py_path continuation_renderer token_path
  else OK JNull.

(** the renderer names whose entries are skipped by an [elif ...: continue] *)
Definition skipped_renderers : list string :=
  ["shelfRenderer"; "radioRenderer"; "playlistRenderer";
   "horizontalCardListRenderer"; "didYouMeanRenderer";
   "backgroundPromoRenderer"].

(** the first test of the chain: [details.get('searchPyvRenderer', {}).get('ads', None)] *)
Definition ads_of (details : json) : res json :=
  let? pyv := py_get details "searchPyvRenderer" (JDict []) in
  py_get pyv "ads" JNull.

Section Embedding.

Context {env : Environment}.

(** one [elif k in details:] arm of the chain *)
Definition elif_in {A : Type} (k : string) (details : json)
    (hit miss : Py A) : Py A :=
  do found <- lift (py_in k details);
  if found then hit else miss.

Definition continue : Py (option result) := ret None.

(** Body of the loop over [contents]: [None] when the iteration ends in
    [continue], [Some result] when it reaches [results.append(result)]. *)
Definition parse_details (details : json) : Py (option result) :=
  do ads <- lift (ads_of details);
  if truthy ads then continue
  else
    elif_in "shelfRenderer" details continue
   (elif_in "radioRenderer" details continue
   (elif_in "playlistRenderer" details continue
   (elif_in "horizontalCardListRenderer" details continue
   (elif_in "didYouMeanRenderer" details continue
   (elif_in "backgroundPromoRenderer" details continue
   (elif_in "videoRenderer" details
      (do video <- lift (_parse_video details); ret (Some (Video video)))
   (elif_in "channelRenderer" details
      (do channel <- lift (_parse_channel details); ret (Some (Chan channel)))
      (do _ <- warn Unexpected_renderer;
       do _ <- warn (Renderer_name (dict_keys details));
       do q <- read query;
       do _ <- warn (Search_term q);
       do _ <- warn Please_open_issue;
       continue)))))))).

(** the loop [for details in contents], [results] being the list built so far *)
Fixpoint parse_contents (results : list result) (contents : list json)
  : Py (list result) :=
  match contents with
  | [] => ret results
  | details :: rest =>
      do parsed <- parse_details details;
      parse_contents
        (match parsed with Some r => (results ++ [r])%list | None => results end) rest
  end.

(** the part of [fetch_and_parse] under [if item_renderer:] *)
Definition parse_item_renderer (item_renderer : json)
  : Py (option (list result)) :=
  if truthy item_renderer then
    do contents <- lift (py_getitem item_renderer "contents");
    do entries <- lift (py_iter contents);
    do results <- parse_contents [] entries;
    ret (Some results)
  else ret None.

(** [fetch_and_parse] after the document has been fetched *)
Definition parse_page (raw_results : json) : Py (option (list result) * json) :=
  do sections <- lift (locate_sections raw_results);
  do section_list <- lift (py_iter sections);
  do found <- lift (scan_sections (JNull, JNull) section_list);
  do next_continuation <- lift (next_continuation_of (snd found));
  do results <- parse_item_renderer (fst found);
  ret (results, next_continuation).

Section Session.

Variable search : client.

(** [self._innertube_client.search(self.query, self.param, continuation)] *)
Definition innertube_search (continuation : json) : Py json :=
  fun st =>
    (search (query (self st)) (param (self st)) continuation
            (length (calls st)),
     mkState (self st) (calls st ++ [continuation])%list (warnings st)).

Definition fetch_query (continuation : json) : Py json :=
  do query_results <- innertube_search continuation;
  do initial <- read _initial_results;
  do _ <- (if negb (truthy initial)
           then update (set_initial_results query_results)
           else ret tt);
  ret query_results.

Definition fetch_and_parse (continuation : json)
  : Py (option (list result) * json) :=
  do raw_results <- fetch_query continuation;
  parse_page raw_results.

(** the [results] property *)
Definition results : Py (option (list result)) :=
  do cached <- read _results;
  if truthy_list cached then ret cached
  else
    do page <- fetch_and_parse JNull;
    do _ <- update (set_results (fst page));
    do _ <- update (set_current_continuation (snd page));
    read _results.

(** [self._results.extend(videos)] *)
Definition extend_results (videos : option (list result)) : Py unit :=
  do current <- read _results;
  match current with
  | None => raise AttributeError
  | Some have =>
      match videos with
      | None => raise TypeError
      | Some more => update (set_results (Some (have ++ more)%list))
      end
  end.

Definition get_next_results : Py unit :=
  do continuation <- read _current_continuation;
  if truthy continuation then
    do page <- fetch_and_parse continuation;
    do _ <- extend_results (fst page);
    update (set_current_continuation (snd page))
  else raise IndexError.

(** the [completion_suggestions] property *)
Definition completion_suggestions : Py json :=
  do cached <- read _completion_suggestions;
  if truthy cached then ret cached
  else
    do found <- results;
    do _ <- (if truthy_list found
             then
               do initial <- read _initial_results;
               do refinements <- lift (py_getitem initial "refinements");
               update (set_completion_suggestions refinements)
             else ret tt);
    read _completion_suggestions.

(** [n] calls of [get_next_results] in a row, whatever each one does *)
Fixpoint fetch_more (n : nat) (st : state) : state :=
  match n with
  | O => st
  | S n' => fetch_more n' (snd (get_next_results st))
  end.

End Session.

(** ** [YouTubeMetadata] *)

Record YouTubeMetadata : Type := mkYouTubeMetadata
  { _raw_metadata : json;
    _metadata : gmap string json }.

(** [list(map(lambda run: run["text"], runs))] *)
Fixpoint run_texts (runs : list json) : res (list json) :=
  match runs with
  | [] => OK []
  | run :: rest =>
      let? text := py_getitem run "text" in
      let? texts := run_texts rest in
      OK (text :: texts)
  end.

(** ["".join(texts)]: every item has to be a [str] *)
Fixpoint join_empty (texts : list json) : res string :=
  match texts with
  | [] => OK ""
  | JStr s :: rest => let? tail := join_empty rest in OK (s +:+ tail)
  | _ :: _ => Raise TypeError
  end.

Definition description_of (action : json) : res json :=
  let? runs :=
    py_path action [Key "updateDescriptionAction"; Key "description"; Key "runs"] in
  let? items := py_iter runs in
  let? texts := run_texts items in
  let? joined := join_empty texts in
  OK (JStr joined).

(** one [if name in action: self._metadata[key] = value] statement *)
Definition store_if (name key : string) (value : json -> res json)
    (action : json) (m : gmap string json) : res (gmap string json) :=
  let? present := py_in name action in
  if present then let? v := value action in OK (<[key := v]> m)
  else OK m.

Definition viewCount_of (action : json) : res json :=
  py_path action [Key "updateViewershipAction"; Key "viewCount";
                  Key "videoViewCountRenderer"; Key "originalViewCount"].

Definition title_of (action : json) : res json :=
  py_path action [Key "updateTitleAction"; Key "title"; Key "runs"; First;
                  Key "text"].

Definition relativeDate_of (action : json) : res json :=
  py_path action [Key "updateDateAction"; Key "dateText"; Key "simpleText"].

(** body of the loop over [actions] *)
Definition parse_action (m : gmap string json) (action : json)
  : res (gmap string json) :=
  let? m1 := store_if "updateViewershipAction" "viewCount" viewCount_of action m in
  let? m2 := store_if "updateTitleAction" "title" title_of action m1 in
  let? m3 := store_if "updateDateAction" "relativeDate" relativeDate_of action m2 in
  store_if "updateDescriptionAction" "description" description_of action m3.

Fixpoint parse_actions (m : gmap string json) (actions : list json)
  : res (gmap string json) :=
  match actions with
  | [] => OK m
  | action :: rest => let? m' := parse_action m action in parse_actions m' rest
  end.

Definition __parse_metadata (m : gmap string json) (metadata : json)
  : res (gmap string json) :=
  let? actions := py_get metadata "actions" (JList []) in
  let? action_list := py_iter actions in
  parse_actions m action_list.

(** [YouTubeMetadata.__init__] *)
Definition YouTubeMetadata_init (metadata : json) : res YouTubeMetadata :=
  let? m := __parse_metadata ∅ metadata in
  OK (mkYouTubeMetadata metadata m).

(** [__getitem__] *)
Definition YouTubeMetadata_getitem (obj : YouTubeMetadata) (key : string)
  : res json :=
  match _metadata obj !! key with
  | Some v => OK v
  | None => Raise KeyError
  end.

(** [get(key, default)] *)
Definition YouTubeMetadata_get (obj : YouTubeMetadata) (key : string)
    (default : json) : json :=
  match _metadata obj !! key with
  | Some v => v
  | None => default
  end.

(** What one action supplies for a key of the parsed mapping: the update
    action that carries the key, and how its value is read. *)
Definition supplier (key : string) : option (string * (json -> res json)) :=
  if String.eqb key "viewCount" then Some ("updateViewershipAction", viewCount_of)
  else if String.eqb key "title" then Some ("updateTitleAction", title_of)
  else if String.eqb key "relativeDate" then Some ("updateDateAction", relativeDate_of)
  else if String.eqb key "description" then
    Some ("updateDescriptionAction", description_of)
  else None.

Definition supplied (key : string) (action : json) : option json :=
  match supplier key with
  | Some (name, value) =>
      match py_in name action with
      | OK true => match value action with OK v => Some v | Raise _ => None end
      | _ => None
      end
  | None => None
  end.

(** the value supplied by the last action of the list that supplies [key] *)
Fixpoint last_supplied (key : string) (actions : list json) : option json :=
  match actions with
  | [] => None
  | action :: rest =>
      match last_supplied key rest with
      | Some v => Some v
      | None => supplied key action
      end
  end.

(** ** Vocabulary of the statements *)

Definition add_warnings (ws : list warning) (st : state) : state :=
  mkState (self st) (calls st) (warnings st ++ ws)%list.

Definition unexpected_renderer_warnings (query : string) (details : json)
  : list warning :=
  [Unexpected_renderer; Renderer_name (dict_keys details);
   Search_term query; Please_open_issue].

Definition has_key (k : string) (details : json) : bool :=
  match py_in k details with
  | OK b => b
  | Raise _ => false
  end.

(** An advertisement, or an entry carrying one of the six skipped renderers. *)
Definition discard_variant (details : json) : bool :=
  match ads_of details with
  | OK ads => truthy ads || existsb (fun k => has_key k details) skipped_renderers
  | Raise _ => false
  end.

(** An entry that matches no branch of the chain. *)
Definition unrecognized (details : json) : bool :=
  match ads_of details with
  | OK ads =>
      negb (truthy ads)
      && negb (existsb (fun k => has_key k details)
                 (skipped_renderers ++ ["videoRenderer"; "channelRenderer"])%list)
  | Raise _ => false
  end.

(** A video entry that passes the skip tests and whose [int(...)] fails. *)
Definition bad_view_count (details : json) : bool :=
  match ads_of details with
  | OK ads =>
      negb (truthy ads)
      && negb (existsb (fun k => has_key k details) skipped_renderers)
      && has_key "videoRenderer" details
      && match _parse_video details with
         | Raise ValueError => true
         | _ => false
         end
  | Raise _ => false
  end.

(** The sessions a caller can obtain: a new object, then any sequence of
    accesses to the two properties and calls of [get_next_results]. *)
Inductive reachable (search : client) : state -> Prop :=
| reach_fresh query param : reachable search (fresh query param)
| reach_results st :
    reachable search st -> reachable search (snd (results search st))
| reach_next st :
    reachable search st -> reachable search (snd (get_next_results search st))
| reach_suggestions st :
    reachable search st ->
    reachable search (snd (completion_suggestions search st)).

(** [fetched_pages search st pages st']: successive calls of
    [get_next_results] from [st] all returned normally, call [i] having
    fetched and parsed a page whose result list is [pages !! i], and left
    the session in [st']. *)
Inductive fetched_pages (search : client)
  : state -> list (list result) -> state -> Prop :=
| fetched_none st : fetched_pages search st [] st
| fetched_more st st1 st' videos next pages :
    fst (fetch_and_parse search (_current_continuation (self st)) st)
      = OK (Some videos, next) ->
    get_next_results search st = (OK tt, st1) ->
    fetched_pages search st1 pages st' ->
    fetched_pages search st (videos :: pages) st'.

(** ** Sample documents *)

Definition continuation_item (token : json) : json :=
  JDict [("continuationItemRenderer",
          JDict [("continuationEndpoint",
                  JDict [("continuationCommand", JDict [("token", token)])])])].

Definition item_section (entries : list json) : json :=
  JDict [("itemSectionRenderer", JDict [("contents", JList entries)])].

Definition initial_page (sections : list json) (refinements : json) : json :=
  JDict [("contents",
          JDict [("twoColumnSearchResultsRenderer",
                  JDict [("primaryContents",
                          JDict [("sectionListRenderer",
                                  JDict [("contents", JList sections)])])])]);
         ("refinements", refinements)].

Definition continuation_page (sections : list json) : json :=
  JDict [("onResponseReceivedCommands",
          JList [JDict [("appendContinuationItemsAction",
                         JDict [("continuationItems", JList sections)])]])].

Definition channel_entry (channel_id : string) : json :=
  JDict [("channelRenderer", JDict [("channelId", JStr channel_id)])].

Definition text_runs (words : string) : json :=
  JDict [("runs", JList [JDict [("text", JStr words)] ])].

Definition owner_text (name url : string) : json :=
  JDict [("runs",
          JList [JDict [("text", JStr name);
                        ("navigationEndpoint",
                         JDict [("commandMetadata",
                                 JDict [("webCommandMetadata",
                                         JDict [("url", JStr url)])])])] ])].

Definition video_renderer (id : string) (count : list (string * json)) : json :=
  JDict ([("videoId", JStr id);
          ("title", text_runs "a title");
          ("ownerText", owner_text "an owner" "/@owner")] ++ count)%list.

Definition video_entry (id : string) (views : string) : json :=
  JDict [("videoRenderer",
          video_renderer id
            [("viewCountText", JDict [("simpleText", JStr views)])])].

Definition shelf_entry : json := JDict [("shelfRenderer", JDict [])].

Definition ad_entry : json :=
  JDict [("searchPyvRenderer", JDict [("ads", JList [JDict []])])].

Definition unknown_entry : json := JDict [("reelShelfRenderer", JDict [])].

(** a client that answers every call with the same document *)
Definition constant_client (document : json) : client :=
  fun _ _ _ _ => OK document.

(** a client that answers the initial query with [first] and every
    continuation with [next] *)
Definition two_page_client (first next : json) : client :=
  fun _ _ continuation _ =>
    match continuation with
    | JNull => OK first
    | _ => OK next
    end.

(** a client whose answer to the same initial query changes after its first call *)
Definition changing_client (first later : json) : client :=
  fun _ _ _ n =>
    match n with
    | O => OK first
    | S _ => OK later
    end.

Definition no_results_page : json :=
  initial_page [item_section [] ] (JList [JStr "a suggestion"]).

Definition one_channel_page : json :=
  initial_page [item_section [channel_entry "UC1"] ] (JList [JStr "a suggestion"]).

Definition empty_token_page : json :=
  initial_page [item_section [channel_entry "UC1"]; continuation_item (JStr "")]
    (JList []).

Definition bad_count_page : json :=
  initial_page
    [item_section [video_entry "v1" "many views"; channel_entry "UC1"] ]
    (JList []).

Definition only_discards_first_page : json :=
  initial_page [item_section [shelf_entry; ad_entry];
                continuation_item (JStr "T1")]
    (JList [JStr "a suggestion"]).

Definition second_page : json :=
  continuation_page [item_section [channel_entry "UC2"] ].

Definition malformed_page : json := JDict [("error", JStr "quota")].

Definition elif_res {A : Type} (k : string) (details : json)
    (hit miss : res A) : res A :=
  let? found := py_in k details in
  if found then hit else miss.

(** what the loop body yields for an entry, warnings aside *)
Definition outcome (details : json) : res (option result) :=
  let? ads := ads_of details in
  if truthy ads then OK None
  else
    elif_res "shelfRenderer" details (OK None)
   (elif_res "radioRenderer" details (OK None)
   (elif_res "playlistRenderer" details (OK None)
   (elif_res "horizontalCardListRenderer" details (OK None)
   (elif_res "didYouMeanRenderer" details (OK None)
   (elif_res "backgroundPromoRenderer" details (OK None)
   (elif_res "videoRenderer" details
      (let? video := _parse_video details in OK (Some (Video video)))
   (elif_res "channelRenderer" details
      (let? channel := _parse_channel details in OK (Some (Chan channel)))
      (OK None)))))))).

Definition entry_warnings (query : string) (details : json) : list warning :=
  if unrecognized details then unexpected_renderer_warnings query details
  else [].

(** the result list the loop builds, warnings aside *)
Fixpoint collect (results : list result) (contents : list json)
  : res (list result) :=
  match contents with
  | [] => OK results
  | details :: rest =>
      let? parsed := outcome details in
      collect (match parsed with Some r => (results ++ [r])%list | None => results end)
        rest
  end.

(** the warnings logged until the loop ends or an entry raises *)
Fixpoint contents_warnings (query : string) (contents : list json)
  : list warning :=
  match contents with
  | [] => []
  | details :: rest =>
      (entry_warnings query details
       ++ (if is_ok (outcome details) then contents_warnings query rest else []))%list
  end.

(** [fetch_query]'s assignment to [_initial_results] *)
Definition store_first (query_results : json) (s : Search) : Search :=
  if truthy (_initial_results s) then s else set_initial_results query_results s.

Definition called (continuation : json) (st : state) : state :=
  mkState (self st) (calls st ++ [continuation])%list (warnings st).

(** Once a continuation is held, a first document is stored. *)
Definition first_stored (st : state) : Prop :=
  truthy (_current_continuation (self st)) = true ->
  truthy (_initial_results (self st)) = true.

Definition empty_token_session : state :=
  snd (results (constant_client empty_token_page) (fresh "q" None)).

Definition no_results_session : state :=
  snd (results (constant_client no_results_page) (fresh "q" None)).

(** a first page of discarded entries only, then a page with one channel *)
Definition discards_then_channel : client :=
  two_page_client only_discards_first_page second_page.

Definition asked_before_fetch_more : state :=
  snd (completion_suggestions discards_then_channel (fresh "q" None)).

Definition first_page_with_token : json :=
  initial_page [item_section [channel_entry "UC1"];
                continuation_item (JStr "T1")]
    (JList [JStr "a suggestion"]).

Definition two_pages : client := two_page_client first_page_with_token second_page.

(** a continuation page that names a further page *)
Definition next_page_with_token : json :=
  continuation_page [item_section [channel_entry "UC2"];
                     continuation_item (JStr "T2")].

(** a client every page of which names a further page *)
Definition endless_pages : client :=
  two_page_client first_page_with_token next_page_with_token.

Definition asked_on_endless_pages : state :=
  snd (completion_suggestions endless_pages (fresh "q" None)).

(** a document with both envelopes, the initial one stopping at an empty
    dict *)
Definition empty_renderer_document : json :=
  JDict [("contents", JDict [("twoColumnSearchResultsRenderer", JDict [])]);
         ("onResponseReceivedCommands",
          JList [JDict [("appendContinuationItemsAction",
                         JDict [("continuationItems",
                                 JList [continuation_item (JStr "T1")])])] ])].

(** a document with a list under [contents] and a continuation envelope *)
Definition list_contents_document : json :=
  JDict [("contents", JList []);
         ("onResponseReceivedCommands",
          JList [JDict [("appendContinuationItemsAction",
                         JDict [("continuationItems", JList [])])] ])].

Definition no_space (w : string) : bool :=
  forallb (fun c => negb (is_space c)) (list_ascii_of_string w).

(** ordinary decimal notation of a natural number *)
Definition decimal (n : nat) : string :=
  NilEmpty.string_of_uint (Nat.to_uint n).

Definition title_action (words : string) : json :=
  JDict [("updateTitleAction", JDict [("title", text_runs words)])].

Definition retitled_twice : list (string * json) :=
  [("actions", JList [title_action "first title"; title_action "second title"])].

Definition title_action_without_title : list (string * json) :=
  [("actions", JList [JDict [("updateTitleAction", JDict [])] ])].

(** A step that may only add warnings. *)
Definition only_warns (st st' : state) : Prop :=
  exists ws, st' = add_warnings ws st.

(** The entries of the item section a page was parsed from. *)
Definition page_entries (raw : json) (entries : list json) : Prop :=
  exists sections section_list found contents,
    locate_sections raw = OK sections
    /\ py_iter sections = OK section_list
    /\ scan_sections (JNull, JNull) section_list = OK found
    /\ truthy (fst found) = true
    /\ py_getitem (fst found) "contents" = OK contents
    /\ py_iter contents = OK entries.

(** [kept entries found]: [found] lists, in the order of [entries], the
    result of every entry the loop body appends; the other entries (those
    the body skips with [continue]) leave nothing behind. *)
Definition kept (entries : list json) (found : list result) : Prop :=
  exists outcomes,
    Forall2 (fun details o => forall st, fst (parse_details details st) = OK o)
      entries outcomes
    /\ found = omap id outcomes.

(** ** Vocabulary of the further statements *)

(** the three things a caller can do with a session *)
Inductive operation : Type :=
| Access_results
| Call_get_next_results
| Access_completion_suggestions.

(** [perform search op st]: whether the operation returned normally, and
    the state it left *)
Definition perform (search : client) (op : operation) (st : state)
  : bool * state :=
  match op with
  | Access_results =>
      (is_ok (fst (results search st)), snd (results search st))
  | Call_get_next_results =>
      (is_ok (fst (get_next_results search st)),
       snd (get_next_results search st))
  | Access_completion_suggestions =>
      (is_ok (fst (completion_suggestions search st)),
       snd (completion_suggestions search st))
  end.

(** the continuation an operation hands to the client when it fetches *)
Definition continuation_of (op : operation) (st : state) : json :=
  match op with
  | Call_get_next_results => _current_continuation (self st)
  | _ => JNull
  end.

Definition channel_result (channel_id : string) : result :=
  Chan (mkChannel (ChannelUrl (JStr channel_id))).

Definition metadata_keys : list string :=
  ["viewCount"; "title"; "relativeDate"; "description"].

Definition update_actions : list string :=
  ["updateViewershipAction"; "updateTitleAction"; "updateDateAction";
   "updateDescriptionAction"].

Definition text_run (words : string) : json := JDict [("text", JStr words)].

Definition description_action (texts : list string) : json :=
  JDict [("updateDescriptionAction",
          JDict [("description", JDict [("runs", JList (map text_run texts))])])].

Fixpoint concat_strings (texts : list string) : string :=
  match texts with
  | [] => ""
  | s :: rest => s +:+ concat_strings rest
  end.

Definition is_dict (v : json) : bool :=
  match v with JDict _ => true | _ => false end.

Definition is_str (v : json) : bool :=
  match v with JStr _ => true | _ => false end.

Definition description_path : list step :=
  [Key "updateDescriptionAction"; Key "description"; Key "runs"].

(** a description update with the given runs *)
Definition description_update (runs : list json) : json :=
  JDict [("updateDescriptionAction",
          JDict [("description", JDict [("runs", JList runs)])])].

Definition all_space (s : string) : bool :=
  forallb is_space (list_ascii_of_string s).

(** What the stored suggestions can be: nothing, or the refinements of the
    stored first document. *)
Definition suggestions_from_first (st : state) : Prop :=
  _completion_suggestions (self st) = JNull
  \/ py_getitem (_initial_results (self st)) "refinements"
     = OK (_completion_suggestions (self st)).

(** Results or a continuation are only held once a first document is. *)
Definition first_document_held (st : state) : Prop :=
  (truthy (_current_continuation (self st)) = true ->
   truthy (_initial_results (self st)) = true)
  /\ (truthy_list (_results (self st)) = true ->
      truthy (_initial_results (self st)) = true).

(** A session on which the client has not been called is still blank, and
    the first call of any session asks for the initial page. *)
Definition starts_with_initial_query (st : state) : Prop :=
  match calls st with
  | [] =>
      _initial_results (self st) = JNull
      /\ _results (self st) = None
      /\ _completion_suggestions (self st) = JNull
      /\ _current_continuation (self st) = JNull
  | first :: _ => first = JNull
  end.

(** the assignment [self._completion_suggestions = v] *)
Definition with_suggestions (v : json) (st : state) : state :=
  mkState (set_completion_suggestions v (self st)) (calls st) (warnings st).


(** a first page with a continuation item and no item section *)
Definition token_only_page : json :=
  initial_page [continuation_item (JStr "T1")] JNull.

Definition token_only_session : state :=
  snd (results (constant_client token_only_page) (fresh "q" None)).

(** a client that is out of order *)
Definition failing_client (what : string) : client :=
  fun _ _ _ _ => Raise (ClientError what).

Definition suggestions_invariant (st : state) : Prop :=
  first_document_held st /\ suggestions_from_first st.

End Embedding.

(** The environment of the examples.  Its constructors refuse what those of
    the package refuse among the URLs used below: a video id shorter than
    eleven characters and an empty channel id raise [RegexMatchError].  The
    limit on digits is CPython's default. *)
#[global] Instance example_environment : Environment :=
  {| YouTube_rejects := fun url =>
       match url with
       | WatchUrl (JStr id) =>
           if (String.length id <? 11)%nat then Some "RegexMatchError"
           else None
       | _ => None
       end;
     Channel_rejects := fun url =>
       match url with
       | ChannelUrl (JStr EmptyString) => Some "RegexMatchError"
       | _ => None
       end;
     int_max_str_digits := 4300 |}.

(** * Facts about the parser *)

Section ParserFacts.

Context {env : Environment}.

Lemma add_warnings_nil st : add_warnings [] st = st.
Proof. destruct st; unfold add_warnings; simpl. by rewrite app_nil_r. Qed.

Lemma add_warnings_app ws1 ws2 st :
  add_warnings ws2 (add_warnings ws1 st) = add_warnings (ws1 ++ ws2) st.
Proof. unfold add_warnings; simpl. by rewrite app_assoc. Qed.

End ParserFacts.

Ltac case_key :=
  match goal with
  | |- context [bool_decide ?P] =>
      let E := fresh "Hkey" in
      destruct (bool_decide P) eqn:E; simpl
  end.

Section ParserFacts2.

Context {env : Environment}.

Lemma ads_of_ok_dict details ads :
  ads_of details = OK ads -> exists d, details = JDict d.
Proof. destruct details; try discriminate. eauto. Qed.

Lemma parse_details_spec details st :
  parse_details details st
  = (outcome details, add_warnings (entry_warnings (query (self st)) details) st).
Proof.
  unfold parse_details, outcome, entry_warnings, unrecognized.
  unfold bind at 1, lift at 1, res_bind at 1.
  destruct (ads_of details) as [ads|e] eqn:Hads; simpl;
    [|by rewrite add_warnings_nil].
  destruct (ads_of_ok_dict _ _ Hads) as [d ->].
  destruct (truthy ads); simpl; [by rewrite add_warnings_nil|].
  unfold elif_in, elif_res, continue, has_key, bind, lift, ret, res_bind, py_in.
  repeat (case_key; try by rewrite add_warnings_nil).
  - destruct (_parse_video (JDict d)); by rewrite add_warnings_nil.
  - destruct (_parse_channel (JDict d)); by rewrite add_warnings_nil.
  - unfold warn, read, add_warnings, unexpected_renderer_warnings; simpl.
    by rewrite <- !app_assoc.
Qed.

Lemma parse_contents_spec contents : forall results st,
  parse_contents results contents st
  = (collect results contents,
     add_warnings (contents_warnings (query (self st)) contents) st).
Proof.
  induction contents as [|details rest IH]; intros results st; simpl.
  - by rewrite add_warnings_nil.
  - unfold bind. rewrite parse_details_spec.
    destruct (outcome details) as [parsed|e]; simpl.
    + by rewrite IH, add_warnings_app.
    + by rewrite app_nil_r.
Qed.

Lemma collect_app contents1 contents2 : forall results,
  collect results (contents1 ++ contents2)
  = let? results' := collect results contents1 in collect results' contents2.
Proof.
  induction contents1 as [|details rest IH]; intros results; simpl; [done|].
  destruct (outcome details); simpl; [apply IH|done].
Qed.

Lemma collect_outcomes contents : forall results found,
  collect results contents = OK found <->
  exists outcomes,
    Forall2 (fun details o => outcome details = OK o) contents outcomes
    /\ found = results ++ omap id outcomes.
Proof.
  induction contents as [|details rest IH]; intros results found; simpl.
  - split.
    + intros [= <-]. exists []. split; [constructor|]. by rewrite app_nil_r.
    + intros (outcomes & Hall & ->). inversion Hall; subst. simpl.
      by rewrite app_nil_r.
  - split.
    + destruct (outcome details) as [parsed|e] eqn:Hout; simpl; [|done].
      intros Hrest. apply IH in Hrest as (outcomes & Hall & ->).
      exists (parsed :: outcomes). split; [by constructor|].
      destruct parsed; simpl; [by rewrite <- app_assoc|done].
    + intros (outcomes & Hall & ->).
      inversion Hall as [|? parsed ? outcomes' Hout Hall']; subst.
      rewrite Hout. simpl. apply IH. exists outcomes'. split; [done|].
      destruct parsed; simpl; [by rewrite <- app_assoc|done].
Qed.

Lemma only_warns_refl st : only_warns st st.
Proof. exists []. by rewrite add_warnings_nil. Qed.

Lemma parse_item_renderer_frame item st :
  only_warns st (snd (parse_item_renderer item st)).
Proof.
  unfold parse_item_renderer.
  destruct (truthy item); [|apply only_warns_refl].
  unfold bind, lift, ret.
  destruct (py_getitem item "contents") as [contents|]; simpl;
    [|apply only_warns_refl].
  destruct (py_iter contents) as [entries|]; simpl; [|apply only_warns_refl].
  rewrite parse_contents_spec.
  destruct (collect [] entries); simpl; eexists; reflexivity.
Qed.

Lemma parse_item_renderer_fst item st st' :
  fst (parse_item_renderer item st) = fst (parse_item_renderer item st').
Proof.
  unfold parse_item_renderer.
  destruct (truthy item); [|done].
  unfold bind, lift, ret.
  destruct (py_getitem item "contents") as [contents|]; simpl; [|done].
  destruct (py_iter contents) as [entries|]; simpl; [|done].
  rewrite !parse_contents_spec.
  by destruct (collect [] entries).
Qed.

Lemma parse_page_frame raw st : only_warns st (snd (parse_page raw st)).
Proof.
  unfold parse_page, bind, lift, ret.
  destruct (locate_sections raw) as [sections|]; simpl; [|apply only_warns_refl].
  destruct (py_iter sections) as [section_list|]; simpl; [|apply only_warns_refl].
  destruct (scan_sections (JNull, JNull) section_list) as [found|]; simpl;
    [|apply only_warns_refl].
  destruct (next_continuation_of found.2) as [next|]; simpl;
    [|apply only_warns_refl].
  pose proof (parse_item_renderer_frame found.1 st) as Hframe.
  destruct (parse_item_renderer found.1 st) as [[r|e] st']; exact Hframe.
Qed.

Lemma parse_page_fst raw st st' :
  fst (parse_page raw st) = fst (parse_page raw st').
Proof.
  unfold parse_page, bind, lift, ret.
  destruct (locate_sections raw) as [sections|]; simpl; [|done].
  destruct (py_iter sections) as [section_list|]; simpl; [|done].
  destruct (scan_sections (JNull, JNull) section_list) as [found|]; simpl; [|done].
  destruct (next_continuation_of found.2) as [next|]; simpl; [|done].
  pose proof (parse_item_renderer_fst found.1 st st') as Hfst.
  destruct (parse_item_renderer found.1 st) as [[r|e] st1],
           (parse_item_renderer found.1 st') as [[r'|e'] st1'];
    simpl in *; congruence.
Qed.

End ParserFacts2.

(** * Facts about one fetch *)

Section FetchFacts.

Context {env : Environment}.

Lemma locate_sections_truthy raw sections :
  locate_sections raw = OK sections -> truthy raw = true.
Proof.
  destruct raw as [| | | | |d]; try discriminate.
  destruct d; [discriminate|done].
Qed.

Lemma parse_page_ok_truthy raw st page st' :
  parse_page raw st = (OK page, st') -> truthy raw = true.
Proof.
  unfold parse_page. unfold bind at 1, lift at 1.
  destruct (locate_sections raw) eqn:Hloc; [|discriminate].
  intros _. eapply locate_sections_truthy, Hloc.
Qed.

Lemma store_first_truthy raw s :
  truthy (_initial_results s) = true -> store_first raw s = s.
Proof. unfold store_first. by intros ->. Qed.

Lemma store_first_falsy raw s :
  truthy (_initial_results s) = false ->
  store_first raw s = set_initial_results raw s.
Proof. unfold store_first. by intros ->. Qed.

Lemma store_first_fields raw s :
  query (store_first raw s) = query s
  /\ param (store_first raw s) = param s
  /\ _results (store_first raw s) = _results s
  /\ _completion_suggestions (store_first raw s) = _completion_suggestions s
  /\ _current_continuation (store_first raw s) = _current_continuation s.
Proof. unfold store_first. by destruct (truthy (_initial_results s)). Qed.

Lemma store_first_stored raw s :
  truthy raw = true -> truthy (_initial_results (store_first raw s)) = true.
Proof.
  intros Hraw. unfold store_first.
  by destruct (truthy (_initial_results s)) eqn:Hinit.
Qed.

Section SessionFacts.

Variable search : client.

Lemma fetch_query_spec continuation st :
  fetch_query search continuation st
  = match search (query (self st)) (param (self st)) continuation
            (length (calls st)) with
    | OK raw =>
        (OK raw,
         mkState (store_first raw (self st)) (calls st ++ [continuation])
           (warnings st))
    | Raise e => (Raise e, called continuation st)
    end.
Proof.
  unfold fetch_query, innertube_search, bind, read, update, ret, store_first,
    called.
  destruct (search _ _ _ _) as [raw|e]; simpl; [|done].
  by destruct (truthy (_initial_results (self st))).
Qed.

Lemma fetch_and_parse_spec continuation st :
  fetch_and_parse search continuation st
  = match search (query (self st)) (param (self st)) continuation
            (length (calls st)) with
    | OK raw =>
        parse_page raw
          (mkState (store_first raw (self st)) (calls st ++ [continuation])
             (warnings st))
    | Raise e => (Raise e, called continuation st)
    end.
Proof.
  unfold fetch_and_parse. unfold bind at 1. rewrite fetch_query_spec.
  by destruct (search _ _ _ _).
Qed.

(** What a fetch may change: the call log, the warnings, and the stored
    first document when none was stored. *)
Lemma fetch_and_parse_frame continuation st :
  let st' := snd (fetch_and_parse search continuation st) in
  calls st' = calls st ++ [continuation]
  /\ query (self st') = query (self st)
  /\ param (self st') = param (self st)
  /\ _results (self st') = _results (self st)
  /\ _completion_suggestions (self st') = _completion_suggestions (self st)
  /\ _current_continuation (self st') = _current_continuation (self st)
  /\ (truthy (_initial_results (self st)) = true -> self st' = self st).
Proof.
  simpl. rewrite fetch_and_parse_spec.
  destruct (search _ _ _ _) as [raw|e]; simpl.
  - destruct (parse_page_frame raw
      (mkState (store_first raw (self st)) (calls st ++ [continuation])
         (warnings st))) as [ws ->]; simpl.
    destruct (store_first_fields raw (self st)) as (?&?&?&?&?).
    repeat split; try done. apply store_first_truthy.
  - repeat split; done.
Qed.

Lemma fetch_and_parse_ok continuation st page st' :
  fetch_and_parse search continuation st = (OK page, st') ->
  truthy (_initial_results (self st')) = true.
Proof.
  rewrite fetch_and_parse_spec.
  destruct (search _ _ _ _) as [raw|e]; [|discriminate].
  intros Hparse. pose proof (parse_page_ok_truthy _ _ _ _ Hparse) as Hraw.
  pose proof (parse_page_frame raw
      (mkState (store_first raw (self st)) (calls st ++ [continuation])
         (warnings st))) as [ws Hst].
  rewrite Hparse in Hst. simpl in Hst. subst st'. simpl.
  by apply store_first_stored.
Qed.

Lemma results_cached st :
  truthy_list (_results (self st)) = true ->
  results search st = (OK (_results (self st)), st).
Proof. unfold results, bind, read, ret. simpl. by intros ->. Qed.

Lemma results_fetch st :
  truthy_list (_results (self st)) = false ->
  results search st
  = match fetch_and_parse search JNull st with
    | (OK page, st1) =>
        (OK (fst page),
         mkState (set_current_continuation (snd page)
                    (set_results (fst page) (self st1)))
           (calls st1) (warnings st1))
    | (Raise e, st1) => (Raise e, st1)
    end.
Proof.
  unfold results. unfold bind at 1, read at 1. simpl. intros ->.
  unfold bind at 1.
  by destruct (fetch_and_parse search JNull st) as [[page|e] st1].
Qed.

Lemma get_next_results_exhausted st :
  truthy (_current_continuation (self st)) = false ->
  get_next_results search st = (Raise IndexError, st).
Proof. unfold get_next_results, bind, read, raise. simpl. by intros ->. Qed.

Lemma get_next_results_fetch st :
  truthy (_current_continuation (self st)) = true ->
  get_next_results search st
  = match fetch_and_parse search (_current_continuation (self st)) st with
    | (OK page, st1) =>
        match _results (self st1), fst page with
        | None, _ => (Raise AttributeError, st1)
        | Some _, None => (Raise TypeError, st1)
        | Some have, Some more =>
            (OK tt,
             mkState (set_current_continuation (snd page)
                        (set_results (Some (have ++ more)) (self st1)))
               (calls st1) (warnings st1))
        end
    | (Raise e, st1) => (Raise e, st1)
    end.
Proof.
  unfold get_next_results. unfold bind at 1, read at 1. simpl. intros ->.
  unfold bind at 1.
  destruct (fetch_and_parse search _ st) as [[page|e] st1]; [|done].
  unfold extend_results, bind, read, update, raise. simpl.
  destruct (_results (self st1)); [|done].
  by destruct (fst page).
Qed.

End SessionFacts.

End FetchFacts.

(** * An invariant of sessions *)

Section InvariantFacts.

Context {env : Environment}.

Section SessionInvariant.

Variable search : client.

Lemma results_first_stored st :
  first_stored st -> first_stored (snd (results search st)).
Proof.
  intros Hinv.
  destruct (truthy_list (_results (self st))) eqn:Hcached.
  - by rewrite results_cached.
  - rewrite results_fetch by done.
    pose proof (fetch_and_parse_frame search JNull st) as Hframe.
    destruct (fetch_and_parse search JNull st) as [[page|e] st1] eqn:Hfetch.
    + intros _. simpl. eapply fetch_and_parse_ok, Hfetch.
    + simpl in *. destruct Hframe as (_&_&_&_&_&Hcont&Hself).
      intros Htok. rewrite Hcont in Htok. specialize (Hinv Htok).
      by rewrite (Hself Hinv).
Qed.

Lemma get_next_results_self st :
  first_stored st ->
  truthy (_current_continuation (self st)) = true ->
  let st' := snd (get_next_results search st) in
  _initial_results (self st') = _initial_results (self st)
  /\ _completion_suggestions (self st') = _completion_suggestions (self st)
  /\ query (self st') = query (self st)
  /\ param (self st') = param (self st)
  /\ calls st' = calls st ++ [_current_continuation (self st)].
Proof.
  intros Hinv Htok. simpl. rewrite get_next_results_fetch by done.
  pose proof (fetch_and_parse_frame search (_current_continuation (self st)) st)
    as Hframe.
  destruct (fetch_and_parse search _ st) as [[page|e] st1]; simpl in *;
    destruct Hframe as (Hcalls&_&_&_&_&_&Hself);
    pose proof (Hself (Hinv Htok)) as Heq.
  - rewrite Heq.
    destruct (_results (self st)); [destruct (fst page)|]; simpl;
      rewrite ?Heq; repeat split; done.
  - rewrite Heq. repeat split; done.
Qed.

Lemma get_next_results_first_stored st :
  first_stored st -> first_stored (snd (get_next_results search st)).
Proof.
  intros Hinv.
  destruct (truthy (_current_continuation (self st))) eqn:Htok.
  - destruct (get_next_results_self st Hinv Htok) as (Hinit&_).
    intros _. rewrite Hinit. by apply Hinv.
  - by rewrite get_next_results_exhausted.
Qed.

Lemma completion_suggestions_first_stored st :
  first_stored st -> first_stored (snd (completion_suggestions search st)).
Proof.
  intros Hinv. unfold completion_suggestions.
  unfold bind at 1, read at 1. simpl.
  destruct (truthy (_completion_suggestions (self st))); [done|].
  unfold bind at 1.
  pose proof (results_first_stored st Hinv) as Hinv1.
  destruct (results search st) as [[found|e] st1]; [|done].
  simpl in Hinv1.
  destruct (truthy_list found); [|done].
  unfold bind, read, lift, update, ret. simpl.
  destruct (py_getitem (_initial_results (self st1)) "refinements"); done.
Qed.

Lemma reachable_first_stored st : reachable search st -> first_stored st.
Proof.
  induction 1.
  - intros Htok. discriminate Htok.
  - by apply results_first_stored.
  - by apply get_next_results_first_stored.
  - by apply completion_suggestions_first_stored.
Qed.

Lemma fetch_more_reachable n : forall st,
  reachable search st -> reachable search (fetch_more search n st).
Proof.
  induction n as [|n IH]; intros st Hst; simpl; [done|].
  apply IH. by constructor.
Qed.

(** [get_next_results] never writes the stored first document or the cached
    suggestions of a session a caller can hold. *)
Lemma get_next_results_keeps st :
  reachable search st ->
  let st' := snd (get_next_results search st) in
  _initial_results (self st') = _initial_results (self st)
  /\ _completion_suggestions (self st') = _completion_suggestions (self st).
Proof.
  intros Hst. simpl.
  destruct (truthy (_current_continuation (self st))) eqn:Htok.
  - destruct (get_next_results_self st (reachable_first_stored st Hst) Htok)
      as (?&?&_). done.
  - by rewrite get_next_results_exhausted.
Qed.

Lemma fetch_more_keeps n : forall st,
  reachable search st ->
  let st' := fetch_more search n st in
  _initial_results (self st') = _initial_results (self st)
  /\ _completion_suggestions (self st') = _completion_suggestions (self st).
Proof.
  induction n as [|n IH]; intros st Hst; simpl; [done|].
  destruct (IH (snd (get_next_results search st))) as [H1 H2];
    [by constructor|].
  destruct (get_next_results_keeps st Hst) as [H3 H4]. simpl in *.
  split; congruence.
Qed.

End SessionInvariant.

End InvariantFacts.

(** * Caching and pagination *)

Section Caching.

Context {env : Environment}.

Lemma get_next_results_calls search st :
  truthy (_current_continuation (self st)) = true ->
  calls (snd (get_next_results search st))
  = calls st ++ [_current_continuation (self st)].
Proof.
  intros Htok. rewrite get_next_results_fetch by done.
  pose proof (fetch_and_parse_frame search (_current_continuation (self st)) st)
    as (Hcalls&_).
  destruct (fetch_and_parse search _ st) as [[page|e] st1]; simpl in *; [|done].
  destruct (_results (self st1)); [destruct (fst page)|]; done.
Qed.

End Caching.

(** C1 (counterexample).  With a client whose first page has an item
    section without entries, the first access to [results] returns the empty
    list after one client call, and the second access, with no
    [get_next_results] in between, calls the client again.  The same happens
    when the page has no item section at all ([results] is [None]), and when
    the client's second answer differs the second access returns a different
    sequence. *)
Lemma results_fetches_again_after_empty_page :
  results (constant_client no_results_page) (fresh "q" None)
    = (OK (Some []), no_results_session)
  /\ calls no_results_session = [JNull]
  /\ calls (snd (results (constant_client no_results_page) no_results_session))
     = [JNull; JNull]
  /\ fst (results (constant_client (initial_page [] JNull)) (fresh "q" None))
     = OK None
  /\ calls (snd (results (constant_client (initial_page [] JNull))
                   (snd (results (constant_client (initial_page [] JNull))
                           (fresh "q" None)))))
     = [JNull; JNull]
  /\ fst (results (changing_client no_results_page one_channel_page)
            (fresh "q" None))
     = OK (Some [])
  /\ fst (results (changing_client no_results_page one_channel_page)
            (snd (results (changing_client no_results_page one_channel_page)
                    (fresh "q" None))))
     = OK (Some [Chan (mkChannel (ChannelUrl (JStr "UC1")))]).
Proof. vm_compute. repeat split; reflexivity. Qed.

Section Caching2.

Context {env : Environment}.

Lemma results_stored search st found st1 :
  results search st = (OK found, st1) -> _results (self st1) = found.
Proof.
  destruct (truthy_list (_results (self st))) eqn:Hcached.
  - rewrite results_cached by done. by intros [= <- <-].
  - rewrite results_fetch by done.
    destruct (fetch_and_parse search JNull st) as [[page|e] st2]; [|done].
    by intros [= <- <-].
Qed.

(** C1 (amended).  While the accumulated result list is non-empty, an access
    to [results] returns that list and leaves the session and the client
    untouched; so once an access has returned a non-empty list, the next
    access, with no [get_next_results] in between, returns the same list
    without calling the client.  When the stored list is empty or [None],
    as after a first page without results, the access queries the client for
    the first page again. *)
Theorem results_idempotent search st :
  (truthy_list (_results (self st)) = true ->
   results search st = (OK (_results (self st)), st))
  /\ (forall found st1,
        results search st = (OK found, st1) ->
        truthy_list found = true ->
        results search st1 = (OK found, st1))
  /\ (truthy_list (_results (self st)) = false ->
      calls (snd (results search st)) = calls st ++ [JNull]).
Proof.
  split; [apply results_cached|split].
  - intros found st1 Hfirst Hfound.
    pose proof (results_stored _ _ _ _ Hfirst) as Hstored.
    rewrite results_cached; by rewrite Hstored.
  - intros Hempty. rewrite results_fetch by done.
    pose proof (fetch_and_parse_frame search JNull st) as (Hcalls&_).
    by destruct (fetch_and_parse search JNull st) as [[page|e] st2].
Qed.

End Caching2.

(** C1 (instance).  Two accesses after a first page with one channel: the
    second returns the same list and the same session. *)
Lemma results_idempotent_witness :
  results (constant_client one_channel_page)
    (snd (results (constant_client one_channel_page) (fresh "q" None)))
  = (OK (Some [Chan (mkChannel (ChannelUrl (JStr "UC1")))]),
     snd (results (constant_client one_channel_page) (fresh "q" None))).
Proof.
  apply (proj1 (proj2 (results_idempotent (constant_client one_channel_page)
                         (fresh "q" None)))
           (Some [Chan (mkChannel (ChannelUrl (JStr "UC1")))])
           (snd (results (constant_client one_channel_page) (fresh "q" None))));
    reflexivity.
Defined.

(** C3 (counterexample).  After a first page whose continuation token is the
    empty string the session has fetched once and holds a token that is not
    [None], yet [get_next_results] raises [IndexError] without fetching:
    a third situation besides the two the claim lists. *)
Lemma empty_token_raises_index_error :
  calls empty_token_session = [JNull]
  /\ _current_continuation (self empty_token_session) = JStr ""
  /\ get_next_results (constant_client empty_token_page) empty_token_session
     = (Raise IndexError, empty_token_session).
Proof. vm_compute. repeat split; reflexivity. Qed.

Section Caching3.

Context {env : Environment}.

(** C3 (amended).  [get_next_results] raises [IndexError] and leaves the
    session and the client untouched exactly when the stored continuation is
    falsy: [None] on a session that has not fetched yet or that has reached
    the last page, or an empty token.  With any other token the client is
    called with that token. *)
Theorem get_next_results_index_error search st :
  (get_next_results search st = (Raise IndexError, st)
   <-> truthy (_current_continuation (self st)) = false)
  /\ (_current_continuation (self st) = JNull ->
      get_next_results search st = (Raise IndexError, st))
  /\ (forall query param,
        get_next_results search (fresh query param)
        = (Raise IndexError, fresh query param))
  /\ (truthy (_current_continuation (self st)) = true ->
      calls (snd (get_next_results search st))
      = calls st ++ [_current_continuation (self st)]).
Proof.
  split; [split|].
  - intros Hraise.
    destruct (truthy (_current_continuation (self st))) eqn:Htok; [|done].
    pose proof (get_next_results_calls search st Htok) as Hcalls.
    rewrite Hraise in Hcalls. simpl in Hcalls.
    apply (f_equal length) in Hcalls. rewrite length_app in Hcalls.
    simpl in Hcalls. lia.
  - apply get_next_results_exhausted.
  - split; [|split].
    + intros Hnone. apply get_next_results_exhausted. by rewrite Hnone.
    + intros query param. by apply get_next_results_exhausted.
    + apply get_next_results_calls.
Qed.

End Caching3.

(** C3 (instance).  A new session: [get_next_results] raises [IndexError]
    and changes nothing. *)
Lemma get_next_results_index_error_witness :
  get_next_results (constant_client one_channel_page) (fresh "q" None)
  = (Raise IndexError, fresh "q" None).
Proof.
  apply (get_next_results_index_error (constant_client one_channel_page)
           (fresh "q" None)).
Defined.

(** C8 (counterexample).  The first page holds discarded entries only, so
    the first access to [completion_suggestions] returns [None]; after one
    successful [get_next_results] the same access returns the first page's
    refinements.  The value returned has changed. *)
Lemma suggestions_differ_after_fetch_more :
  fst (completion_suggestions discards_then_channel (fresh "q" None)) = OK JNull
  /\ fst (get_next_results discards_then_channel asked_before_fetch_more) = OK tt
  /\ fst (completion_suggestions discards_then_channel
            (fetch_more discards_then_channel 1 asked_before_fetch_more))
     = OK (JList [JStr "a suggestion"]).
Proof. vm_compute. repeat split; reflexivity. Qed.

Section Caching4.

Context {env : Environment}.

Lemma first_results_store_document search query param found st :
  results search (fresh query param) = (OK found, st) ->
  search query param JNull 0 = OK (_initial_results (self st)).
Proof.
  rewrite results_fetch by done. rewrite fetch_and_parse_spec. simpl.
  destruct (search query param JNull 0) as [raw|e]; [|discriminate].
  pose proof (parse_page_frame raw
    (mkState (store_first raw (Search_init query param)) [JNull] [])) as [ws Hst].
  destruct (parse_page raw _) as [[page|e] st1]; [|discriminate].
  intros [= _ <-]. simpl in *. by subst st1.
Qed.

(** C8 (amended).  On every session a caller can hold, no number of
    [get_next_results] calls changes the stored first document or the cached
    suggestions.  Suggestions that were captured (a non-empty list) are what
    [completion_suggestions] returns afterwards, without any fetch; while
    none are captured, the property returns the refinements of the stored
    first document as soon as the accumulated result list is non-empty.  The
    stored document is the one the client returned to the first query. *)
Theorem suggestions_after_fetch_more search st n :
  reachable search st ->
  let st' := fetch_more search n st in
  _initial_results (self st') = _initial_results (self st)
  /\ _completion_suggestions (self st') = _completion_suggestions (self st)
  /\ (truthy (_completion_suggestions (self st)) = true ->
      completion_suggestions search st'
      = (OK (_completion_suggestions (self st)), st'))
  /\ (truthy (_completion_suggestions (self st)) = false ->
      truthy_list (_results (self st')) = true ->
      forall refinements,
        py_getitem (_initial_results (self st)) "refinements" = OK refinements ->
        completion_suggestions search st'
        = (OK refinements,
           mkState (set_completion_suggestions refinements (self st'))
             (calls st') (warnings st')))
  /\ (forall query param found st1,
        results search (fresh query param) = (OK found, st1) ->
        search query param JNull 0 = OK (_initial_results (self st1))).
Proof.
  intros Hst. simpl.
  destruct (fetch_more_keeps search n st Hst) as [Hinit Hsugg]. simpl in *.
  repeat split; try done.
  - intros Hcached. unfold completion_suggestions, bind, read, ret. simpl.
    by rewrite Hsugg, Hcached.
  - intros Hnone Hfound refinements Hrefs.
    unfold completion_suggestions. unfold bind at 1, read at 1. simpl.
    rewrite Hsugg, Hnone. unfold bind at 1.
    rewrite results_cached by done. rewrite Hfound.
    unfold bind, read, lift, update, ret. simpl.
    by rewrite Hinit, Hrefs.
  - apply first_results_store_document.
Qed.

End Caching4.

(** C8 (instance).  Suggestions captured after a first page with one
    result are returned unchanged after two calls of [get_next_results],
    each of which fetched a continuation page and added its channel. *)
Lemma suggestions_after_fetch_more_witness :
  reachable endless_pages asked_on_endless_pages
  /\ calls asked_on_endless_pages = [JNull]
  /\ _completion_suggestions (self asked_on_endless_pages)
     = JList [JStr "a suggestion"]
  /\ calls (fetch_more endless_pages 2 asked_on_endless_pages)
     = [JNull; JStr "T1"; JStr "T2"]
  /\ _results (self (fetch_more endless_pages 2 asked_on_endless_pages))
     = Some [channel_result "UC1"; channel_result "UC2"; channel_result "UC2"]
  /\ _initial_results (self (fetch_more endless_pages 2 asked_on_endless_pages))
     = first_page_with_token
  /\ fst (completion_suggestions endless_pages
            (fetch_more endless_pages 2 asked_on_endless_pages))
     = OK (JList [JStr "a suggestion"]).
Proof.
  assert (Hreach : reachable endless_pages asked_on_endless_pages)
    by (apply reach_suggestions, reach_fresh).
  destruct (suggestions_after_fetch_more endless_pages asked_on_endless_pages
              2 Hreach) as (Hdocument & _ & Hsame & _).
  split; [exact Hreach|].
  do 4 (split; [reflexivity|]).
  split.
  - rewrite Hdocument. reflexivity.
  - rewrite Hsame; reflexivity.
Defined.

(** * Malformed envelopes *)

Section MalformedEnvelopes.

Context {env : Environment}.

Lemma parse_page_malformed raw e st :
  locate_sections raw = Raise e -> parse_page raw st = (Raise e, st).
Proof. intros Hloc. unfold parse_page, bind, lift. by rewrite Hloc. Qed.

End MalformedEnvelopes.

(** C9 (counterexample).  The first document a new session fetches matches
    neither envelope: the access to [results] raises [KeyError], and the
    stored first document, [None] before the call, is the malformed document
    after it. *)
Lemma malformed_first_page_is_stored :
  locate_sections malformed_page = Raise KeyError
  /\ _initial_results (self (fresh "q" None)) = JNull
  /\ fst (results (constant_client malformed_page) (fresh "q" None))
     = Raise KeyError
  /\ _initial_results
       (self (snd (results (constant_client malformed_page) (fresh "q" None))))
     = malformed_page.
Proof. vm_compute. repeat split; reflexivity. Qed.

Section MalformedEnvelopes2.

Context {env : Environment}.

(** C9 (amended).  When the fetched document matches neither envelope, the
    fetch raises the lookup error; the accumulated results, the continuation
    and the cached suggestions are what they were, and so is the whole
    session object when a first document was already stored, as it is on
    every session a caller can hold once it has a continuation.  When none
    was stored, the malformed document is stored as the first document.
    The same holds for the two callers, [results] and [get_next_results]. *)
Theorem malformed_envelope_state search st continuation raw e :
  search (query (self st)) (param (self st)) continuation (length (calls st))
    = OK raw ->
  locate_sections raw = Raise e ->
  let st' := mkState (store_first raw (self st)) (calls st ++ [continuation])
               (warnings st) in
  fetch_and_parse search continuation st = (Raise e, st')
  /\ (truthy_list (_results (self st)) = false -> continuation = JNull ->
      results search st = (Raise e, st'))
  /\ (truthy continuation = true ->
      continuation = _current_continuation (self st) ->
      get_next_results search st = (Raise e, st'))
  /\ _results (self st') = _results (self st)
  /\ _current_continuation (self st') = _current_continuation (self st)
  /\ _completion_suggestions (self st') = _completion_suggestions (self st)
  /\ (truthy (_initial_results (self st)) = true -> self st' = self st)
  /\ (truthy (_initial_results (self st)) = false ->
      _initial_results (self st') = raw)
  /\ (reachable search st ->
      truthy (_current_continuation (self st)) = true ->
      self st' = self st).
Proof.
  intros Hsearch Hloc. simpl.
  assert (Hfetch : fetch_and_parse search continuation st
                   = (Raise e, mkState (store_first raw (self st))
                                 (calls st ++ [continuation]) (warnings st))).
  { rewrite fetch_and_parse_spec, Hsearch. by apply parse_page_malformed. }
  destruct (store_first_fields raw (self st)) as (_&_&Hres&Hsugg&Htok).
  repeat split; try done.
  - intros Hcached ->. rewrite results_fetch by done. by rewrite Hfetch.
  - intros Htruthy ->. rewrite get_next_results_fetch by done.
    by rewrite Hfetch.
  - apply store_first_truthy.
  - intros Hfalsy. by rewrite store_first_falsy.
  - intros Hreach Htoken. apply store_first_truthy.
    by apply (reachable_first_stored search st Hreach).
Qed.

End MalformedEnvelopes2.

(** C9 (instance).  A session holding a first document and a token fetches
    a malformed continuation page: only the call log changes. *)
Lemma malformed_envelope_state_witness :
  get_next_results (two_page_client one_channel_page malformed_page)
    (mkState (mkSearch "q" None one_channel_page
                (Some [Chan (mkChannel (ChannelUrl (JStr "UC1")))])
                JNull (JStr "T1"))
       [JNull] [])
  = (Raise KeyError,
     mkState (mkSearch "q" None one_channel_page
                (Some [Chan (mkChannel (ChannelUrl (JStr "UC1")))])
                JNull (JStr "T1"))
       [JNull; JStr "T1"] []).
Proof.
  apply (malformed_envelope_state
           (two_page_client one_channel_page malformed_page)
           (mkState (mkSearch "q" None one_channel_page
                       (Some [Chan (mkChannel (ChannelUrl (JStr "UC1")))])
                       JNull (JStr "T1"))
              [JNull] [])
           (JStr "T1") malformed_page KeyError);
    reflexivity.
Defined.

(** * Accumulated results *)

Section AccumulatedResults.

Context {env : Environment}.

Lemma parse_details_outcome details o :
  outcome details = OK o <-> forall st, fst (parse_details details st) = OK o.
Proof.
  split.
  - intros Hout st. by rewrite parse_details_spec.
  - intros Hall. specialize (Hall (fresh "" None)).
    by rewrite parse_details_spec in Hall.
Qed.

Lemma parse_page_some raw st found next st' :
  parse_page raw st = (OK (Some found, next), st') ->
  exists entries, page_entries raw entries /\ kept entries found.
Proof.
  unfold parse_page, bind, lift, ret.
  destruct (locate_sections raw) as [sections|] eqn:Hloc; simpl; [|done].
  destruct (py_iter sections) as [section_list|] eqn:Hiter; simpl; [|done].
  destruct (scan_sections (JNull, JNull) section_list) as [scanned|] eqn:Hscan;
    simpl; [|done].
  destruct (next_continuation_of scanned.2) as [tok|]; simpl; [|done].
  unfold parse_item_renderer, bind, lift, ret.
  destruct (truthy scanned.1) eqn:Htruthy; [|done].
  destruct (py_getitem scanned.1 "contents") as [contents|] eqn:Hget; simpl;
    [|done].
  destruct (py_iter contents) as [entries|] eqn:Hentries; simpl; [|done].
  rewrite parse_contents_spec.
  destruct (collect [] entries) as [rs|] eqn:Hcollect; simpl; [|done].
  intros [= -> _ _].
  exists entries. split.
  - by exists sections, section_list, scanned, contents.
  - apply collect_outcomes in Hcollect as (outcomes & Hall & ->).
    exists outcomes. split; [|done].
    eapply Forall2_impl; [exact Hall|].
    intros details o Hout. by apply parse_details_outcome.
Qed.

Section Accumulation.

Variable search : client.

Lemma get_next_results_extends st st1 videos next :
  fst (fetch_and_parse search (_current_continuation (self st)) st)
    = OK (Some videos, next) ->
  get_next_results search st = (OK tt, st1) ->
  exists have,
    _results (self st) = Some have
    /\ _results (self st1) = Some (have ++ videos)
    /\ _current_continuation (self st1) = next.
Proof.
  intros Hpage Hnext.
  destruct (truthy (_current_continuation (self st))) eqn:Htok;
    [|by rewrite get_next_results_exhausted in Hnext].
  rewrite get_next_results_fetch in Hnext by done.
  pose proof (fetch_and_parse_frame search (_current_continuation (self st)) st)
    as (_&_&_&Hres&_).
  destruct (fetch_and_parse search _ st) as [[page|e] st2]; [|done].
  simpl in *. injection Hpage as ->. simpl in Hnext.
  rewrite Hres in Hnext.
  destruct (_results (self st)) as [have|]; [|done].
  injection Hnext as <-. by exists have.
Qed.

Lemma fetched_pages_results st pages st' :
  fetched_pages search st pages st' ->
  _results (self st')
  = match pages with
    | [] => _results (self st)
    | _ => option_map (fun have => have ++ concat pages) (_results (self st))
    end
  /\ (_results (self st) = None -> pages = []).
Proof.
  induction 1 as [st|st st1 st' videos next pages Hpage Hnext Hrest IH].
  - done.
  - destruct (get_next_results_extends _ _ _ _ Hpage Hnext)
      as (have & Hhave & Hhave1 & _).
    destruct IH as [IH _]. rewrite Hhave. split; [|done].
    rewrite IH, Hhave1. simpl.
    destruct pages; simpl; by rewrite ?app_nil_r, <- ?app_assoc.
Qed.

End Accumulation.

(** C2.  After the first access to [results] on a new session and [n]
    successful calls of [get_next_results], the accumulated list is the
    first page's results followed by the results of each fetched page, in
    call order; and the results of a page are what the loop body appends for
    the entries of the page's item section, in the order of the entries,
    skipped entries leaving nothing behind. *)
Theorem accumulated_results_are_concatenated
    search q p first st0 pages st :
  results search (fresh q p) = (OK first, st0) ->
  fetched_pages search st0 pages st ->
  (exists next,
     fst (fetch_and_parse search JNull (fresh q p)) = OK (first, next))
  /\ _results (self st)
     = option_map (fun page0 => page0 ++ concat pages) first
  /\ (forall continuation st1 found next,
        fst (fetch_and_parse search continuation st1) = OK (Some found, next) ->
        exists raw entries,
          search (query (self st1)) (param (self st1)) continuation
            (length (calls st1)) = OK raw
          /\ page_entries raw entries
          /\ kept entries found).
Proof.
  intros Hfirst Hpages.
  rewrite results_fetch in Hfirst by done.
  destruct (fetch_and_parse search JNull (fresh q p))
    as [[page|e] st2] eqn:Hfetch; [|done].
  injection Hfirst as <- <-.
  split; [exists (snd page); by destruct page|].
  split.
  - destruct (fetched_pages_results search _ _ _ Hpages) as [Hacc Hnone].
    simpl in *. rewrite Hacc.
    destruct page.1 as [page0|]; simpl.
    + destruct pages; simpl; by rewrite ?app_nil_r.
    + by rewrite Hnone.
  - intros continuation st1 found next. rewrite fetch_and_parse_spec.
    destruct (search _ _ _ _) as [raw|e]; [|done].
    destruct (parse_page raw _) as [[[rs tok]|e] st3] eqn:Hparse; [|done].
    simpl. intros [= -> ->].
    destruct (parse_page_some _ _ _ _ _ Hparse) as (entries & Hentries & Hkept).
    by exists raw, entries.
Qed.

End AccumulatedResults.

(** C2 (instance).  Two pages of one channel each. *)
Lemma accumulated_results_are_concatenated_witness :
  _results (self (fetch_more two_pages 1 (snd (results two_pages (fresh "q" None)))))
  = Some [Chan (mkChannel (ChannelUrl (JStr "UC1")));
          Chan (mkChannel (ChannelUrl (JStr "UC2")))].
Proof.
  refine (proj1 (proj2 (accumulated_results_are_concatenated two_pages "q" None
    (Some [Chan (mkChannel (ChannelUrl (JStr "UC1")))])
    (snd (results two_pages (fresh "q" None)))
    [[Chan (mkChannel (ChannelUrl (JStr "UC2")))]]
    (fetch_more two_pages 1 (snd (results two_pages (fresh "q" None))))
    _ _))).
  - reflexivity.
  - eapply fetched_more with (next := JNull).
    + reflexivity.
    + reflexivity.
    + apply fetched_none.
Defined.

(** * Outcomes of single entries *)

Section EntryOutcomes.

Context {env : Environment}.

Lemma unrecognized_outcome details :
  unrecognized details = true -> outcome details = OK None.
Proof.
  unfold unrecognized, outcome. unfold res_bind at 1.
  destruct (ads_of details) as [ads|] eqn:Hads; [|done].
  destruct (ads_of_ok_dict _ _ Hads) as [d ->].
  destruct (truthy ads); simpl; [done|].
  unfold elif_res, has_key, res_bind, py_in.
  repeat (case_key; try done).
Qed.

Lemma discard_outcome details :
  discard_variant details = true ->
  outcome details = OK None /\ unrecognized details = false.
Proof.
  unfold discard_variant, unrecognized, outcome. unfold res_bind at 1.
  destruct (ads_of details) as [ads|] eqn:Hads; [|done].
  destruct (ads_of_ok_dict _ _ Hads) as [d ->].
  destruct (truthy ads); simpl; [done|].
  unfold elif_res, has_key, res_bind, py_in.
  repeat (case_key; try done).
Qed.

Lemma bad_view_count_outcome details :
  bad_view_count details = true ->
  outcome details = Raise ValueError /\ unrecognized details = false.
Proof.
  unfold bad_view_count, unrecognized, outcome. unfold res_bind at 1.
  destruct (ads_of details) as [ads|] eqn:Hads; [|done].
  destruct (ads_of_ok_dict _ _ Hads) as [d ->].
  destruct (truthy ads); simpl; [done|].
  unfold elif_res, has_key, res_bind, py_in.
  repeat (case_key; try done).
  all: destruct (_parse_video (JDict d)) as [|[]]; done.
Qed.

Lemma py_path_not_value_error p : forall v, py_path v p <> Raise ValueError.
Proof.
  induction p as [|st p IH]; intros v; simpl; [done|].
  destruct st; simpl.
  - destruct v as [| | | | |d]; simpl; try done.
    destruct (assoc k d); simpl; [apply IH|done].
  - destruct v as [| | |s|l|d]; simpl; try done.
    + destruct s; simpl; [done|apply IH].
    + destruct l; simpl; [done|apply IH].
Qed.

Lemma py_in_not_value_error k v : py_in k v <> Raise ValueError.
Proof. by destruct v. Qed.

Lemma py_getitem_not_value_error v k : py_getitem v k <> Raise ValueError.
Proof. destruct v as [| | | | |d]; simpl; try done. by destruct (assoc k d). Qed.

Lemma bind_raise {A B : Type} (r : res A) (k : A -> res B) e :
  res_bind r k = Raise e ->
  r = Raise e \/ exists x, r = OK x /\ k x = Raise e.
Proof. destruct r as [x|e']; simpl; [by eauto|]. intros [= ->]. by left. Qed.

End EntryOutcomes.

Ltac step_value_error H x Hx :=
  apply bind_raise in H as [H|(x & Hx & H)];
  [first [ by destruct (py_path_not_value_error _ _ H)
         | by destruct (py_getitem_not_value_error _ _ H)
         | by destruct (py_in_not_value_error _ _ H) ]|].

Section EntryOutcomes2.

Context {env : Environment}.

(** A [ValueError] of [_parse_video] comes from [int(...)] applied to the
    first word of the view-count text, which is not ["No"]. *)
Lemma parse_video_value_error details :
  _parse_video details = Raise ValueError ->
  exists renderer words w rest,
    py_getitem details "videoRenderer" = OK renderer
    /\ view_count renderer = Raise ValueError
    /\ py_split words = w :: rest
    /\ remove_commas w <> "No"
    /\ py_int (remove_commas w) = Raise ValueError.
Proof.
  unfold _parse_video. intros H.
  apply bind_raise in H as [H|(m & _ & H)];
    [|by unfold construct in H; destruct (YouTube_rejects _)].
  unfold video_details_metadata in H.
  step_value_error H renderer Hrenderer.
  step_value_error H vid Hid.
  step_value_error H ttl Httl.
  step_value_error H name Hname.
  step_value_error H uri Huri.
  apply bind_raise in H as [H|(n & _ & H)].
  2:{ apply bind_raise in H as [H|(len & _ & H)]; [|done].
      unfold video_length in H.
      step_value_error H has_length Hlen.
      destruct has_length; [|done].
      by destruct (py_path_not_value_error _ _ H). }
  pose proof H as Hcount. unfold view_count in H.
  step_value_error H has_count Hcounted.
  destruct has_count; [|done].
  step_value_error H field Hfield.
  step_value_error H has_runs Hruns.
  apply bind_raise in H as [H|(t & _ & H)].
  { destruct has_runs.
    - by destruct (py_path_not_value_error _ _ H).
    - by destruct (py_getitem_not_value_error _ _ H). }
  destruct t as [| | |words| |]; try done.
  simpl in H. destruct (py_split words) as [|w rest] eqn:Hsplit; [done|].
  destruct (String.eqb (remove_commas w) "No") eqn:Hno; [done|].
  exists renderer, words, w, rest. repeat split; try done.
  intros Heq. rewrite Heq in Hno. done.
Qed.

End EntryOutcomes2.

(** * Failures inside a page *)

Section PageFailures.

Context {env : Environment}.

Lemma parse_contents_app before rest : forall results st,
  parse_contents results (before ++ rest) st
  = match parse_contents results before st with
    | (OK results', st') => parse_contents results' rest st'
    | (Raise e, st') => (Raise e, st')
    end.
Proof.
  induction before as [|details before IH]; intros results st; simpl; [done|].
  unfold bind. destruct (parse_details details st) as [[parsed|e] st1]; [|done].
  apply IH.
Qed.

End PageFailures.

(** C4 (counterexample).  The first entry of the item section is a video
    whose view-count text is ["many views"], the second a channel that parses
    on its own: the page-level parse raises [ValueError] and returns no
    result, and so does the access to [results]. *)
Lemma bad_view_count_aborts_page :
  bad_view_count (video_entry "v1" "many views") = true
  /\ fst (parse_details (channel_entry "UC1") (fresh "q" None))
     = OK (Some (Chan (mkChannel (ChannelUrl (JStr "UC1")))))
  /\ fst (parse_page bad_count_page (fresh "q" None)) = Raise ValueError
  /\ fst (fetch_and_parse (constant_client bad_count_page) JNull (fresh "q" None))
     = Raise ValueError
  /\ fst (results (constant_client bad_count_page) (fresh "q" None))
     = Raise ValueError.
Proof. vm_compute. repeat split; reflexivity. Qed.

Section PageFailures2.

Context {env : Environment}.

(** C4 (amended).  An entry that matches no known renderer is contained: the
    loop logs its four warnings, appends nothing and goes on with the
    remaining entries.  A video entry whose view-count text makes [int]
    fail is not: the [ValueError] leaves the loop at that entry, and the
    page-level parse raises it instead of returning results. *)
Theorem entry_failures details :
  (unrecognized details = true ->
   forall results rest st,
     parse_contents results (details :: rest) st
     = parse_contents results rest
         (add_warnings
            (unexpected_renderer_warnings (query (self st)) details) st))
  /\ (bad_view_count details = true ->
      (exists renderer words w more,
         py_getitem details "videoRenderer" = OK renderer
         /\ view_count renderer = Raise ValueError
         /\ py_split words = w :: more
         /\ remove_commas w <> "No"
         /\ py_int (remove_commas w) = Raise ValueError)
      /\ (forall results before rest st results' st',
            parse_contents results before st = (OK results', st') ->
            parse_contents results (before ++ details :: rest) st
            = (Raise ValueError, st'))
      /\ (forall item contents before rest st results' st',
            truthy item = true ->
            py_getitem item "contents" = OK contents ->
            py_iter contents = OK (before ++ details :: rest) ->
            parse_contents [] before st = (OK results', st') ->
            parse_item_renderer item st = (Raise ValueError, st'))
      /\ (forall raw before rest st,
            page_entries raw (before ++ details :: rest) ->
            is_ok (fst (parse_page raw st)) = false)).
Proof.
  split.
  - intros Hun results rest st. simpl. unfold bind.
    rewrite parse_details_spec, (unrecognized_outcome _ Hun).
    unfold entry_warnings. by rewrite Hun.
  - intros Hbad. destruct (bad_view_count_outcome _ Hbad) as [Hout Hrec].
    assert (Hloop : forall results before rest st results' st',
      parse_contents results before st = (OK results', st') ->
      parse_contents results (before ++ details :: rest) st
      = (Raise ValueError, st')).
    { intros results before rest st results' st' Hbefore.
      rewrite parse_contents_app, Hbefore. simpl. unfold bind.
      rewrite parse_details_spec, Hout. unfold entry_warnings.
      by rewrite Hrec, add_warnings_nil. }
    assert (Hitem : forall item contents before rest st results' st',
      truthy item = true ->
      py_getitem item "contents" = OK contents ->
      py_iter contents = OK (before ++ details :: rest) ->
      parse_contents [] before st = (OK results', st') ->
      parse_item_renderer item st = (Raise ValueError, st')).
    { intros item contents before rest st results' st' Htruthy Hget Hiter Hbefore.
      unfold parse_item_renderer. rewrite Htruthy.
      unfold bind at 1, lift at 1. rewrite Hget.
      unfold bind at 1, lift at 1. rewrite Hiter.
      unfold bind at 1. by rewrite (Hloop _ _ rest _ _ _ Hbefore). }
    repeat split; try done.
    + unfold bad_view_count in Hbad.
      destruct (ads_of details); [|done].
      destruct (_parse_video details) as [|[]] eqn:Hvideo;
        rewrite ?andb_false_r in Hbad; try done.
      by apply parse_video_value_error.
    + intros raw before rest st
        (sections & section_list & found & contents
         & Hloc & Hsecs & Hscan & Htruthy & Hget & Hiter).
      unfold parse_page, bind, lift, ret.
      rewrite Hloc, Hsecs, Hscan. simpl.
      destruct (next_continuation_of found.2); [|done]. simpl.
      destruct (parse_contents [] before st) as [[results'|e] st'] eqn:Hbefore.
      * by rewrite (Hitem _ _ _ _ _ _ _ Htruthy Hget Hiter Hbefore).
      * unfold parse_item_renderer. rewrite Htruthy.
        unfold bind, lift. rewrite Hget, Hiter, parse_contents_app, Hbefore.
        done.
Qed.

End PageFailures2.

(** C4 (instance).  An unknown renderer is skipped; a video with the text
    [many views] stops the loop. *)
Lemma entry_failures_witness :
  parse_contents [] [unknown_entry; channel_entry "UC1"] (fresh "q" None)
  = parse_contents [] [channel_entry "UC1"]
      (add_warnings (unexpected_renderer_warnings "q" unknown_entry)
         (fresh "q" None))
  /\ parse_contents [] ([channel_entry "UC1"]
                        ++ video_entry "v1" "many views" :: [unknown_entry])
       (fresh "q" None)
     = (Raise ValueError, fresh "q" None).
Proof.
  split.
  - apply (proj1 (entry_failures unknown_entry)). reflexivity.
  - destruct (proj2 (entry_failures (video_entry "v1" "many views")))
      as (_ & Hloop & _); [reflexivity|].
    apply (Hloop [] [channel_entry "UC1"] [unknown_entry] (fresh "q" None)
             [Chan (mkChannel (ChannelUrl (JStr "UC1")))]).
    reflexivity.
Defined.

(** * Missing sections and discarded entries *)

Section MissingSections.

Context {env : Environment}.

Lemma scan_sections_no_continuation section_list : forall found found',
  Forall (fun s => py_in "continuationItemRenderer" s = OK false) section_list ->
  scan_sections found section_list = OK found' ->
  snd found' = snd found.
Proof.
  induction section_list as [|s rest IH]; intros found found' Hall; simpl.
  - by intros [= ->].
  - inversion Hall as [|? ? Hs Hrest]; subst.
    unfold scan_section. rewrite Hs. unfold res_bind at 1 2.
    destruct (py_in "itemSectionRenderer" s) as [has|]; [|done].
    destruct (if has then _ else _) as [item|]; simpl; [|done].
    intros Hscan. by rewrite (IH _ _ Hrest Hscan).
Qed.

Lemma scan_sections_no_items section_list : forall found found',
  Forall (fun s => py_in "itemSectionRenderer" s = OK false) section_list ->
  scan_sections found section_list = OK found' ->
  fst found' = fst found.
Proof.
  induction section_list as [|s rest IH]; intros found found' Hall; simpl.
  - by intros [= ->].
  - inversion Hall as [|? ? Hs Hrest]; subst.
    unfold scan_section. rewrite Hs. simpl.
    destruct (py_in "continuationItemRenderer" s) as [has|]; [|done]. simpl.
    destruct (if has then _ else _) as [tok|]; simpl; [|done].
    intros Hscan. by rewrite (IH _ _ Hrest Hscan).
Qed.

Lemma getitem_ok_truthy v k x : py_getitem v k = OK x -> truthy v = true.
Proof.
  destruct v as [| | | | |d]; simpl; try done. by destruct d.
Qed.

Lemma getitem_ok_in v k x : py_getitem v k = OK x -> py_in k v = OK true.
Proof.
  destruct v as [| | | | |d]; simpl; try discriminate.
  by destruct (assoc k d).
Qed.

(** the item section kept by the loop is that of the last section that
    carries one *)
Lemma scan_sections_item_section before s after renderer : forall found found',
  py_getitem s "itemSectionRenderer" = OK renderer ->
  Forall (fun s' => py_in "itemSectionRenderer" s' = OK false) after ->
  scan_sections found (before ++ s :: after) = OK found' ->
  fst found' = renderer.
Proof.
  induction before as [|s0 before IH]; intros found found' Hs Hafter; simpl.
  - unfold scan_section.
    rewrite (getitem_ok_in _ _ _ Hs), Hs. simpl.
    destruct (py_in "continuationItemRenderer" s) as [has|]; [|done]. simpl.
    destruct (if has then _ else _) as [tok|]; simpl; [|done].
    intros Hscan. by rewrite (scan_sections_no_items _ _ _ Hafter Hscan).
  - destruct (scan_section found s0) as [found1|]; simpl; [|done].
    by apply IH.
Qed.

(** and so is the continuation item *)
Lemma scan_sections_continuation_item before s after item : forall found found',
  py_getitem s "continuationItemRenderer" = OK item ->
  Forall (fun s' => py_in "continuationItemRenderer" s' = OK false) after ->
  scan_sections found (before ++ s :: after) = OK found' ->
  snd found' = item.
Proof.
  induction before as [|s0 before IH]; intros found found' Hs Hafter; simpl.
  - unfold scan_section.
    destruct (py_in "itemSectionRenderer" s) as [has|]; [|done]. simpl.
    destruct (if has then _ else _) as [renderer|]; simpl; [|done].
    rewrite (getitem_ok_in _ _ _ Hs), Hs. simpl.
    intros Hscan. by rewrite (scan_sections_no_continuation _ _ _ Hafter Hscan).
  - destruct (scan_section found s0) as [found1|]; simpl; [|done].
    by apply IH.
Qed.

Lemma path_ok_truthy v k p x : py_path v (Key k :: p) = OK x -> truthy v = true.
Proof.
  simpl. destruct (py_getitem v k) as [y|] eqn:Hk; [|done].
  intros _. by eapply getitem_ok_truthy.
Qed.

Lemma scan_sections_neither section_list : forall found,
  Forall (fun s => py_in "itemSectionRenderer" s = OK false) section_list ->
  Forall (fun s => py_in "continuationItemRenderer" s = OK false) section_list ->
  scan_sections found section_list = OK found.
Proof.
  induction section_list as [|s rest IH]; intros found Hitems Hconts; simpl;
    [done|].
  inversion Hitems as [|? ? Hi Hirest]; inversion Hconts as [|? ? Hc Hcrest];
    subst.
  unfold scan_section. rewrite Hi, Hc. simpl.
  destruct found. by apply IH.
Qed.

(** C6.  Let the client return a document whose sections are located and can
    be iterated.  If no section carries a continuation item, every page
    [fetch_and_parse] returns has the token [None]; if no section carries an
    item section, every page it returns has the result list [None]; and when
    both are missing it does return, with [(None, None)].  A section that is
    there is told apart from one that is not: when the last section that
    carries an item section has a renderer with [contents], every page
    returned has a result list, which is the empty list when [contents] has
    no entry; and when the last section that carries a continuation item
    holds a token, every page returned has that token. *)
Theorem absent_sections search st continuation raw sections section_list :
  search (query (self st)) (param (self st)) continuation (length (calls st))
    = OK raw ->
  locate_sections raw = OK sections ->
  py_iter sections = OK section_list ->
  (Forall (fun s => py_in "continuationItemRenderer" s = OK false) section_list ->
   forall page st',
     fetch_and_parse search continuation st = (OK page, st') ->
     snd page = JNull)
  /\ (Forall (fun s => py_in "itemSectionRenderer" s = OK false) section_list ->
      forall page st',
        fetch_and_parse search continuation st = (OK page, st') ->
        fst page = None)
  /\ (Forall (fun s => py_in "continuationItemRenderer" s = OK false) section_list ->
      Forall (fun s => py_in "itemSectionRenderer" s = OK false) section_list ->
      fst (fetch_and_parse search continuation st) = OK (None, JNull))
  /\ (forall before s after renderer contents,
        section_list = before ++ s :: after ->
        py_getitem s "itemSectionRenderer" = OK renderer ->
        Forall (fun s' => py_in "itemSectionRenderer" s' = OK false) after ->
        py_getitem renderer "contents" = OK contents ->
        forall page st',
          fetch_and_parse search continuation st = (OK page, st') ->
          exists results,
            fst page = Some results
            /\ (py_iter contents = OK [] -> results = []))
  /\ (forall before s after item token,
        section_list = before ++ s :: after ->
        py_getitem s "continuationItemRenderer" = OK item ->
        Forall (fun s' => py_in "continuationItemRenderer" s' = OK false)
          after ->
        py_path item token_path = OK token ->
        forall page st',
          fetch_and_parse search continuation st = (OK page, st') ->
          snd page = token).
Proof.
  intros Hsearch Hloc Hiter.
  rewrite fetch_and_parse_spec, Hsearch.
  unfold parse_page, bind, lift, ret. rewrite Hloc, Hiter. simpl.
  split; [|split; [|split; [|split]]].
  - intros Hnone page st'.
    destruct (scan_sections (JNull, JNull) section_list) as [found|] eqn:Hscan;
      simpl; [|done].
    rewrite (scan_sections_no_continuation _ _ _ Hnone Hscan). simpl.
    destruct (parse_item_renderer found.1 _) as [[results|] st1]; [|done].
    by intros [= <- _].
  - intros Hnone page st'.
    destruct (scan_sections (JNull, JNull) section_list) as [found|] eqn:Hscan;
      simpl; [|done].
    destruct (next_continuation_of found.2) as [tok|]; simpl; [|done].
    rewrite (scan_sections_no_items _ _ _ Hnone Hscan). simpl.
    by intros [= <- _].
  - intros Hconts Hitems.
    by rewrite (scan_sections_neither _ _ Hitems Hconts).
  - intros before s after renderer contents -> Hs Hafter Hcontents page st'.
    destruct (scan_sections (JNull, JNull) _) as [found|] eqn:Hscan;
      simpl; [|done].
    destruct (next_continuation_of found.2) as [tok|]; simpl; [|done].
    rewrite (scan_sections_item_section _ _ _ _ _ _ Hs Hafter Hscan).
    unfold parse_item_renderer, bind, lift, ret.
    rewrite (getitem_ok_truthy _ _ _ Hcontents), Hcontents. simpl.
    destruct (py_iter contents) as [entries|]; simpl; [|done].
    destruct (parse_contents [] entries _) as [[results|] st1] eqn:Hparse;
      simpl; [|done].
    intros [= <- _]. exists results. split; [done|].
    intros [= ->]. simpl in Hparse. by injection Hparse as <-.
  - intros before s after item token -> Hs Hafter Htoken page st'.
    destruct (scan_sections (JNull, JNull) _) as [found|] eqn:Hscan;
      simpl; [|done].
    rewrite (scan_sections_continuation_item _ _ _ _ _ _ Hs Hafter Hscan).
    unfold next_continuation_of.
    rewrite (path_ok_truthy item "continuationEndpoint"
               [Key "continuationCommand"; Key "token"] token Htoken).
    change (py_path item token_path) with
      (let? x := py_getitem item "continuationEndpoint" in
       let? x0 := py_getitem x "continuationCommand" in
       let? x1 := py_getitem x0 "token" in OK x1).
    rewrite Htoken. simpl.
    destruct (parse_item_renderer found.1 _) as [[results|] st1]; [|done].
    by intros [= <- _].
Qed.

End MissingSections.

(** C6 (instance).  A first page whose item section has no entry and that
    has no continuation item gives the empty list and the token [None]; a
    first page with a continuation item only gives [None] and the token;
    a first page without sections gives [(None, None)]. *)
Lemma absent_sections_witness :
  match fetch_and_parse (constant_client (initial_page [item_section [] ] JNull))
          JNull (fresh "q" None) with
  | (OK page, _) => snd page = JNull /\ fst page = Some []
  | (Raise _, _) => False
  end
  /\ match fetch_and_parse (constant_client token_only_page) JNull
             (fresh "q" None) with
     | (OK page, _) => fst page = None /\ snd page = JStr "T1"
     | (Raise _, _) => False
     end
  /\ fst (fetch_and_parse (constant_client (initial_page [] JNull)) JNull
            (fresh "q" None))
     = OK (None, JNull).
Proof.
  split; [|split].
  - destruct (fetch_and_parse _ JNull (fresh "q" None)) as [[page|e] st']
      eqn:Hpage; [|discriminate Hpage].
    destruct (absent_sections
                (constant_client (initial_page [item_section [] ] JNull))
                (fresh "q" None) JNull (initial_page [item_section [] ] JNull)
                (JList [item_section [] ]) [item_section [] ]
                eq_refl eq_refl eq_refl)
      as (Htoken & _ & _ & Hitems & _).
    split.
    + apply (Htoken ltac:(repeat constructor) page st' Hpage).
    + destruct (Hitems [] (item_section []) [] (JDict [("contents", JList [])])
                  (JList []) eq_refl eq_refl ltac:(constructor) eq_refl
                  page st' Hpage) as (results & -> & Hempty).
      by rewrite Hempty.
  - destruct (fetch_and_parse _ JNull (fresh "q" None)) as [[page|e] st']
      eqn:Hpage; [|discriminate Hpage].
    destruct (absent_sections (constant_client token_only_page)
                (fresh "q" None) JNull token_only_page
                (JList [continuation_item (JStr "T1")])
                [continuation_item (JStr "T1")]
                eq_refl eq_refl eq_refl)
      as (_ & Hnone & _ & _ & Htoken).
    split.
    + apply (Hnone ltac:(repeat constructor) page st' Hpage).
    + apply (Htoken [] (continuation_item (JStr "T1")) []
               (JDict [("continuationEndpoint",
                        JDict [("continuationCommand",
                                JDict [("token", JStr "T1")])])])
               (JStr "T1") eq_refl eq_refl ltac:(constructor) eq_refl
               page st' Hpage).
  - refine (proj1 (proj2 (proj2 (absent_sections
      (constant_client (initial_page [] JNull))
      (fresh "q" None) JNull (initial_page [] JNull) (JList []) [] _ _ _)))
      _ _); first [reflexivity | constructor].
Defined.

Section MissingSections2.

Context {env : Environment}.

Lemma discards_collect entries : forall results query,
  forallb discard_variant entries = true ->
  collect results entries = OK results
  /\ contents_warnings query entries = [].
Proof.
  induction entries as [|details rest IH]; intros results query; simpl; [done|].
  intros [Hd Hrest]%andb_prop.
  destruct (discard_outcome _ Hd) as [Hout Hrec].
  rewrite Hout. simpl. unfold entry_warnings. rewrite Hrec. simpl.
  by apply IH.
Qed.

(** C7.  When every entry of the page's item section is an advertisement or
    carries one of the six skipped renderers, [fetch_and_parse] returns the
    empty list (not [None]) and logs nothing; the token it returns is
    computed from the continuation item alone: it is the item's token when
    the item is present, [None] otherwise. *)
Theorem discarded_entries_only
    search st continuation raw sections section_list found contents entries :
  search (query (self st)) (param (self st)) continuation (length (calls st))
    = OK raw ->
  locate_sections raw = OK sections ->
  py_iter sections = OK section_list ->
  scan_sections (JNull, JNull) section_list = OK found ->
  py_getitem (fst found) "contents" = OK contents ->
  py_iter contents = OK entries ->
  forallb discard_variant entries = true ->
  fetch_and_parse search continuation st
  = (match next_continuation_of (snd found) with
     | OK token => OK (Some [], token)
     | Raise e => Raise e
     end,
     mkState (store_first raw (self st)) (calls st ++ [continuation])
       (warnings st))
  /\ (truthy (snd found) = true ->
      next_continuation_of (snd found) = py_path (snd found) token_path)
  /\ (truthy (snd found) = false -> next_continuation_of (snd found) = OK JNull).
Proof.
  intros Hsearch Hloc Hiter Hscan Hget Hentries Hdiscards.
  split; [|unfold next_continuation_of; split; by intros ->].
  rewrite fetch_and_parse_spec, Hsearch.
  unfold parse_page, bind, lift, ret. rewrite Hloc, Hiter, Hscan. simpl.
  destruct (next_continuation_of found.2) as [token|]; simpl; [|done].
  assert (Htruthy : truthy found.1 = true).
  { destruct found.1 as [| | | | |d]; try done. by destruct d. }
  unfold parse_item_renderer. rewrite Htruthy.
  unfold bind, lift, ret. rewrite Hget, Hentries, parse_contents_spec.
  destruct (discards_collect entries [] (query (store_first raw (self st)))
              Hdiscards) as [-> Hws].
  simpl in *. rewrite Hws. by rewrite add_warnings_nil.
Qed.

End MissingSections2.

(** C7 (instance).  A shelf and an advertisement, followed by a
    continuation item. *)
Lemma discarded_entries_only_witness :
  fetch_and_parse (constant_client only_discards_first_page) JNull
    (fresh "q" None)
  = (OK (Some [], JStr "T1"),
     mkState (set_initial_results only_discards_first_page
                (Search_init "q" None))
       [JNull] []).
Proof.
  refine (proj1 (discarded_entries_only
    (constant_client only_discards_first_page) (fresh "q" None) JNull
    only_discards_first_page
    (JList [item_section [shelf_entry; ad_entry]; continuation_item (JStr "T1")])
    [item_section [shelf_entry; ad_entry]; continuation_item (JStr "T1")]
    (JDict [("contents", JList [shelf_entry; ad_entry])],
     JDict [("continuationEndpoint",
             JDict [("continuationCommand", JDict [("token", JStr "T1")])])])
    (JList [shelf_entry; ad_entry]) [shelf_entry; ad_entry]
    _ _ _ _ _ _ _)); reflexivity.
Defined.

(** * View counts *)

Section ViewCounts.

Context {env : Environment}.

Lemma append_cons a (s t : string) : String a s +:+ t = String a (s +:+ t).
Proof. reflexivity. Qed.

Lemma append_nil (t : string) : "" +:+ t = t.
Proof. reflexivity. Qed.

Lemma snoc_append cur c w : snoc cur c +:+ w = cur +:+ String c w.
Proof.
  unfold snoc. induction cur as [|a cur IH]; [done|].
  rewrite !append_cons. by f_equal.
Qed.

Lemma append_empty_r (s : string) : s +:+ "" = s.
Proof. induction s as [|a s IH]; [done|]. rewrite append_cons. by f_equal. Qed.

Lemma split_from_word w : forall cur rest,
  no_space w = true ->
  split_from cur (w +:+ String " " rest)
  = if String.eqb (cur +:+ w) "" then split_from "" rest
    else (cur +:+ w) :: split_from "" rest.
Proof.
  induction w as [|c w IH]; intros cur rest Hw.
  - rewrite append_nil, append_empty_r. reflexivity.
  - rewrite append_cons. simpl.
    simpl in Hw. apply andb_prop in Hw as [Hc Hw].
    apply negb_true_iff in Hc. rewrite Hc.
    rewrite IH by done. by rewrite snoc_append.
Qed.

Lemma first_word_only w rest :
  no_space w = true -> w <> "" ->
  py_split (w +:+ String " " rest) = w :: py_split rest.
Proof.
  intros Hw Hne. unfold py_split. rewrite split_from_word by done.
  rewrite append_nil. by destruct (String.eqb_spec w "").
Qed.

Lemma digit_string_not_space d :
  no_space (NilEmpty.string_of_uint d) = true.
Proof. induction d; simpl; done. Qed.

Lemma lstrip_digits d :
  lstrip (NilEmpty.string_of_uint d) = NilEmpty.string_of_uint d.
Proof. by destruct d. Qed.

Lemma rstrip_digits d :
  rstrip (NilEmpty.string_of_uint d) = NilEmpty.string_of_uint d.
Proof.
  induction d; simpl; [done|..]; rewrite IHd;
    by rewrite andb_false_r.
Qed.

Lemma digits_value_decimal d : forall after_digit acc,
  digits_value after_digit (Z.of_nat acc) (NilEmpty.string_of_uint d)
  = match d with
    | Decimal.Nil => if after_digit then Some (Z.of_nat acc) else None
    | _ => Some (Z.of_nat (Nat.of_uint_acc d acc))
    end.
Proof.
  induction d as [|d IHd|d IHd|d IHd|d IHd|d IHd|d IHd|d IHd|d IHd|d IHd|d IHd];
    intros after_digit acc; [done|..];
    cbn [NilEmpty.string_of_uint digits_value Nat.of_uint_acc];
    unfold digit_of; simpl; rewrite Nat.tail_mul_spec.
  all: match goal with
       | |- digits_value true ?z _ = Some (Z.of_nat (Nat.of_uint_acc _ ?a)) =>
           replace z with (Z.of_nat a) by lia
       end.
  all: rewrite IHd; destruct d; done.
Qed.

Lemma to_uint_not_nil n : Nat.to_uint n <> Decimal.Nil.
Proof.
  rewrite <- (Unsigned.of_to n) at 1. rewrite Unsigned.to_of.
  apply DecimalFacts.unorm_nonnil.
Qed.

Lemma count_digits_uint d :
  count_digits (NilEmpty.string_of_uint d)
  = String.length (NilEmpty.string_of_uint d).
Proof. induction d; simpl; by rewrite ?IHd. Qed.

(** [int] of a decimal numeral is its value, unless the numeral is longer
    than the limit on digits allows *)
Lemma py_int_decimal n :
  py_int (decimal n)
  = if too_many_digits (String.length (decimal n)) then Raise ValueError
    else OK (Z.of_nat n).
Proof.
  unfold py_int, decimal.
  rewrite lstrip_digits, rstrip_digits, count_digits_uint.
  assert (Hvalue : digits_value false 0 (NilEmpty.string_of_uint (Nat.to_uint n))
                   = Some (Z.of_nat n)).
  { change 0%Z with (Z.of_nat 0). rewrite digits_value_decimal.
    pose proof (Unsigned.of_to n) as Hn. unfold Nat.of_uint in Hn.
    pose proof (to_uint_not_nil n) as Hnil.
    destruct (Nat.to_uint n) eqn:Hd; [done|by rewrite Hn..]. }
  destruct (Nat.to_uint n); cbn [NilEmpty.string_of_uint] in *;
    by rewrite ?Hvalue.
Qed.

Lemma decimal_not_empty n : decimal n <> "".
Proof.
  unfold decimal. pose proof (to_uint_not_nil n).
  by destruct (Nat.to_uint n).
Qed.

Lemma decimal_not_no n : String.eqb (decimal n) "No" = false.
Proof. unfold decimal. by destruct (Nat.to_uint n). Qed.

Lemma view_count_of_first_word w rest :
  no_space w = true -> remove_commas w <> "" ->
  view_count_of_text (JStr (w +:+ String " " rest))
  = if String.eqb (remove_commas w) "No" then OK 0%Z
    else py_int (remove_commas w).
Proof.
  intros Hw Hne. unfold view_count_of_text.
  rewrite first_word_only; [done|done|]. by intros ->.
Qed.

Lemma view_count_simple_text d fields words :
  assoc "viewCountText" d = Some (JDict fields) ->
  assoc "runs" fields = None ->
  assoc "simpleText" fields = Some words ->
  view_count (JDict d) = view_count_of_text words.
Proof.
  intros Hfield Hruns Hsimple. unfold view_count. simpl.
  rewrite Hfield. simpl. rewrite Hruns. simpl. by rewrite Hsimple.
Qed.

Lemma video_metadata_view_count details m :
  video_details_metadata details = OK m ->
  exists renderer,
    py_getitem details "videoRenderer" = OK renderer
    /\ view_count renderer = OK (md_view_count m).
Proof.
  unfold video_details_metadata.
  destruct (py_getitem details "videoRenderer") as [renderer|]; [|done].
  unfold res_bind at 1.
  destruct (py_getitem renderer "videoId"); [|done]. unfold res_bind at 1.
  destruct (py_path renderer _); [|done]. unfold res_bind at 1.
  destruct (py_path renderer _); [|done]. unfold res_bind at 1.
  destruct (py_path renderer _); [|done]. unfold res_bind at 1.
  destruct (view_count renderer) as [n|] eqn:Hcount; [|done].
  unfold res_bind at 1.
  destruct (video_length renderer); [|done].
  simpl. intros [= <-]. by exists renderer.
Qed.

(** C5.  For a renderer that is a dict:
    - the simple text ["1,234,567 views"] gives 1234567, and more generally a
      first word that is a decimal number written with or without commas
      gives that number, whatever follows the first whitespace, unless the
      number has more digits than [int] accepts, which raises [ValueError];
    - a text whose first word, commas removed, is exactly ["No"], as in
      ["No views"], gives 0; any other first word is handed to [int], also
      one that only begins with ["No"];
    - a renderer without [viewCountText] gives 0;
    - when [viewCountText] has [runs], the text read is that of the first
      run.
    The count is the [view_count] entry of the metadata [_parse_video]
    builds. *)
Theorem view_count_extraction :
  (forall d fields,
     assoc "viewCountText" d = Some (JDict fields) ->
     assoc "runs" fields = None ->
     assoc "simpleText" fields = Some (JStr "1,234,567 views") ->
     view_count (JDict d) = OK 1234567%Z)
  /\ (forall d fields w rest n,
        assoc "viewCountText" d = Some (JDict fields) ->
        assoc "runs" fields = None ->
        assoc "simpleText" fields = Some (JStr (w +:+ String " " rest)) ->
        no_space w = true ->
        remove_commas w = decimal n ->
        view_count (JDict d)
        = if too_many_digits (String.length (decimal n))
          then Raise ValueError
          else OK (Z.of_nat n))
  /\ (forall d fields words w rest,
        assoc "viewCountText" d = Some (JDict fields) ->
        assoc "runs" fields = None ->
        assoc "simpleText" fields = Some (JStr words) ->
        py_split words = w :: rest ->
        remove_commas w = "No" ->
        view_count (JDict d) = OK 0%Z)
  /\ (forall d fields words w rest,
        assoc "viewCountText" d = Some (JDict fields) ->
        assoc "runs" fields = None ->
        assoc "simpleText" fields = Some (JStr words) ->
        py_split words = w :: rest ->
        remove_commas w <> "No" ->
        view_count (JDict d) = py_int (remove_commas w))
  /\ (forall d, assoc "viewCountText" d = None -> view_count (JDict d) = OK 0%Z)
  /\ (forall d fields runs,
        assoc "viewCountText" d = Some (JDict fields) ->
        assoc "runs" fields = Some runs ->
        view_count (JDict d)
        = let? words := py_path runs [First; Key "text"] in
          view_count_of_text words)
  /\ (forall details m,
        video_details_metadata details = OK m ->
        exists renderer,
          py_getitem details "videoRenderer" = OK renderer
          /\ view_count renderer = OK (md_view_count m)).
Proof.
  repeat apply conj.
  - intros d fields Hfield Hruns Hsimple.
    by rewrite (view_count_simple_text _ _ _ Hfield Hruns Hsimple).
  - intros d fields w rest n Hfield Hruns Hsimple Hw Hn.
    rewrite (view_count_simple_text _ _ _ Hfield Hruns Hsimple).
    rewrite view_count_of_first_word;
      [|done|rewrite Hn; apply decimal_not_empty].
    by rewrite Hn, decimal_not_no, py_int_decimal.
  - intros d fields words w rest Hfield Hruns Hsimple Hsplit Hno.
    rewrite (view_count_simple_text _ _ _ Hfield Hruns Hsimple).
    unfold view_count_of_text. by rewrite Hsplit, Hno.
  - intros d fields words w rest Hfield Hruns Hsimple Hsplit Hno.
    rewrite (view_count_simple_text _ _ _ Hfield Hruns Hsimple).
    unfold view_count_of_text. rewrite Hsplit. simpl.
    by destruct (String.eqb_spec (remove_commas w) "No").
  - intros d Hfield. unfold view_count. simpl. by rewrite Hfield.
  - intros d fields runs Hfield Hruns. unfold view_count. simpl.
    rewrite Hfield. simpl. by rewrite Hruns.
  - apply video_metadata_view_count.
Qed.

End ViewCounts.

(** C5 (instance).  Simple texts, a missing field and a run-based text. *)
Lemma view_count_extraction_witness :
  view_count (video_renderer "v1"
                [("viewCountText", JDict [("simpleText", JStr "1,234,567 views")])])
  = OK 1234567%Z
  /\ view_count (video_renderer "v1"
                   [("viewCountText", JDict [("simpleText", JStr "4,321 views")])])
     = OK (Z.of_nat 4321)
  /\ view_count (video_renderer "v1"
                   [("viewCountText", JDict [("simpleText", JStr "No views")])])
     = OK 0%Z
  /\ view_count (video_renderer "v1"
                   [("viewCountText", JDict [("simpleText", JStr "Nobody views")])])
     = py_int "Nobody"
  /\ view_count (video_renderer "v1" []) = OK 0%Z
  /\ view_count (video_renderer "v1"
                   [("viewCountText", text_runs "12 watching")])
     = OK 12%Z.
Proof.
  destruct view_count_extraction
    as (H1 & H2 & H3 & H4 & H5 & H6 & _).
  unfold video_renderer, text_runs.
  repeat apply conj.
  - eapply H1; reflexivity.
  - apply (H2 _ [("simpleText", JStr "4,321 views")] "4,321" "views" 4321);
      reflexivity.
  - apply (H3 _ [("simpleText", JStr "No views")] "No views" "No" ["views"]);
      reflexivity.
  - apply (H4 _ [("simpleText", JStr "Nobody views")] "Nobody views"
             "Nobody" ["views"]); [reflexivity..|discriminate].
  - apply H5. reflexivity.
  - rewrite (H6 _ [("runs", JList [JDict [("text", JStr "12 watching")] ])]
               (JList [JDict [("text", JStr "12 watching")] ]))
      by reflexivity.
    reflexivity.
Defined.

(** C5 (counterexample).  A text that begins with ["No"] without its first
    word being ["No"] does not give 0: [int("Nobody")] raises. *)
Lemma view_count_of_nobody_views :
  String.prefix "No" "Nobody views" = true
  /\ view_count (video_renderer "v1"
        [("viewCountText", JDict [("simpleText", JStr "Nobody views")])])
     = Raise ValueError.
Proof. split; reflexivity. Qed.

(** * Metadata *)

Section MetadataFacts.

Context {env : Environment}.

Lemma store_if_lookup name key value action (m m' : gmap string json) k :
  store_if name key value action m = OK m' ->
  m' !! k
  = if decide (k = key)
    then match py_in name action with
         | OK true => match value action with OK v => Some v | Raise _ => None end
         | _ => m !! k
         end
    else m !! k.
Proof.
  unfold store_if.
  destruct (py_in name action) as [[|]|]; simpl; [| |done].
  - destruct (value action) as [v|]; simpl; [|done]. intros [= <-].
    case_decide as Hk.
    + subst. by rewrite lookup_insert_eq.
    + by rewrite lookup_insert_ne.
  - intros [= <-]. by case_decide.
Qed.

Lemma parse_action_lookup (m m' : gmap string json) action k :
  parse_action m action = OK m' ->
  m' !! k = match supplied k action with Some v => Some v | None => m !! k end.
Proof.
  unfold parse_action.
  destruct (store_if "updateViewershipAction" _ _ _ m) as [m1|] eqn:H1;
    simpl; [|done].
  destruct (store_if "updateTitleAction" _ _ _ m1) as [m2|] eqn:H2;
    simpl; [|done].
  destruct (store_if "updateDateAction" _ _ _ m2) as [m3|] eqn:H3;
    simpl; [|done].
  intros H4.
  rewrite (store_if_lookup _ _ _ _ _ _ k H4), (store_if_lookup _ _ _ _ _ _ k H3),
    (store_if_lookup _ _ _ _ _ _ k H2), (store_if_lookup _ _ _ _ _ _ k H1).
  unfold supplied, supplier.
  assert (Hok : forall name key value (a b : gmap string json),
    store_if name key value action a = OK b ->
    py_in name action = OK true -> exists v, value action = OK v).
  { intros name key value a b. unfold store_if. intros Hs Hin.
    rewrite Hin in Hs. simpl in Hs. destruct (value action); [eauto|done]. }
  repeat match goal with
         | |- context [String.eqb ?x ?s] =>
             destruct (String.eqb_spec x s) as [->|?]
         end;
    repeat case_decide; simpl; try done.
  all: repeat match goal with
       | |- context [py_in ?n ?a] =>
           let E := fresh "Hin" in
           destruct (py_in n a) as [[|]|] eqn:E; simpl; try done
       end.
  all: repeat match goal with
       | Hs : store_if ?n _ ?value ?a _ = OK _, Hin : py_in ?n ?a = OK true |- _ =>
           let v := fresh "v" in let Hv := fresh "Hv" in
           destruct (Hok _ _ _ _ _ Hs Hin) as [v Hv]; clear Hs;
           try rewrite Hv
       end; try done.
Qed.

Lemma parse_actions_lookup actions : forall (m m' : gmap string json) k,
  parse_actions m actions = OK m' ->
  m' !! k = match last_supplied k actions with Some v => Some v | None => m !! k end.
Proof.
  induction actions as [|action rest IH]; intros m m' k; simpl.
  - by intros [= <-].
  - destruct (parse_action m action) as [m1|] eqn:Hstep; simpl; [|done].
    intros Hrest. rewrite (IH _ _ k Hrest).
    destruct (last_supplied k rest); [done|].
    by apply parse_action_lookup.
Qed.

End MetadataFacts.

(** C10 (counterexample).  The only action carries [updateTitleAction]
    without the nested [title]: constructing the object raises [KeyError]. *)
Lemma construction_can_raise :
  YouTubeMetadata_init (JDict title_action_without_title) = Raise KeyError.
Proof. reflexivity. Qed.

Section MetadataFacts2.

Context {env : Environment}.

(** C10 (amended).  Constructing [YouTubeMetadata] from a dict without an
    [actions] key does not raise and yields the empty mapping.  Whenever the
    construction returns, [get(key, default)] is the value parsed from the
    last action that supplied [key], or [default] when no action supplied
    it, and [obj[key]] is that value in the first case and raises
    [KeyError] in the second. *)
Theorem metadata_access d :
  (assoc "actions" d = None ->
   YouTubeMetadata_init (JDict d) = OK (mkYouTubeMetadata (JDict d) ∅))
  /\ (forall obj,
        YouTubeMetadata_init (JDict d) = OK obj ->
        exists action_list,
          py_iter (match assoc "actions" d with
                   | Some actions => actions
                   | None => JList []
                   end) = OK action_list
          /\ forall key default,
               YouTubeMetadata_get obj key default
               = match last_supplied key action_list with
                 | Some v => v
                 | None => default
                 end
               /\ YouTubeMetadata_getitem obj key
                  = match last_supplied key action_list with
                    | Some v => OK v
                    | None => Raise KeyError
                    end).
Proof.
  split.
  - intros Hnone. unfold YouTubeMetadata_init, __parse_metadata. simpl.
    by rewrite Hnone.
  - intros obj. unfold YouTubeMetadata_init, __parse_metadata. simpl.
    destruct (py_iter _) as [action_list|]; simpl; [|done].
    destruct (parse_actions ∅ action_list) as [m|] eqn:Hparse; simpl; [|done].
    intros [= <-]. exists action_list. split; [done|].
    intros key default.
    unfold YouTubeMetadata_get, YouTubeMetadata_getitem. simpl.
    rewrite (parse_actions_lookup _ _ _ key Hparse), lookup_empty.
    by destruct (last_supplied key action_list).
Qed.

End MetadataFacts2.

(** C10 (instance).  A dict without actions, and a title updated twice. *)
Lemma metadata_access_witness :
  YouTubeMetadata_init (JDict [("videoId", JStr "v1")])
  = OK (mkYouTubeMetadata (JDict [("videoId", JStr "v1")]) ∅)
  /\ YouTubeMetadata_init (JDict retitled_twice)
     = OK (mkYouTubeMetadata (JDict retitled_twice)
             (<["title" := JStr "second title"]> ∅))
  /\ YouTubeMetadata_get
       (mkYouTubeMetadata (JDict retitled_twice)
          (<["title" := JStr "second title"]> ∅))
       "title" JNull
     = JStr "second title"
  /\ YouTubeMetadata_get
       (mkYouTubeMetadata (JDict retitled_twice)
          (<["title" := JStr "second title"]> ∅))
       "viewCount" (JStr "unknown")
     = JStr "unknown"
  /\ YouTubeMetadata_getitem
       (mkYouTubeMetadata (JDict retitled_twice)
          (<["title" := JStr "second title"]> ∅))
       "viewCount"
     = Raise KeyError.
Proof.
  assert (Hobj : YouTubeMetadata_init (JDict retitled_twice)
                 = OK (mkYouTubeMetadata (JDict retitled_twice)
                         (<["title" := JStr "second title"]> ∅)))
    by (vm_compute; reflexivity).
  split; [|split; [exact Hobj|]].
  - apply (proj1 (metadata_access [("videoId", JStr "v1")])). reflexivity.
  - destruct (proj2 (metadata_access retitled_twice) _ Hobj)
      as (action_list & Hiter & Hget).
    injection Hiter as <-.
    destruct (Hget "title" JNull) as [Htitle _].
    destruct (Hget "viewCount" (JStr "unknown")) as [Hdefault Hmissing].
    rewrite Htitle, Hdefault, Hmissing. repeat split; reflexivity.
Defined.

(** * Further facts: sections, envelopes and entries *)

Section MoreSections.

Context {env : Environment}.

Lemma scan_sections_app before after : forall found,
  scan_sections found (before ++ after)
  = let? found' := scan_sections found before in scan_sections found' after.
Proof.
  induction before as [|s before IH]; intros found; simpl; [done|].
  destruct (scan_section found s); simpl; [apply IH|done].
Qed.

(** X1.  The loop over the sections keeps the last section that carries an
    item section, and the last that carries a continuation item: when later
    sections carry none, the renderer used is the one of that section. *)
Theorem last_section_wins found before s after found' :
  scan_sections found (before ++ s :: after) = OK found' ->
  (py_in "itemSectionRenderer" s = OK true ->
   Forall (fun s' => py_in "itemSectionRenderer" s' = OK false) after ->
   py_getitem s "itemSectionRenderer" = OK (fst found'))
  /\ (py_in "continuationItemRenderer" s = OK true ->
      Forall (fun s' => py_in "continuationItemRenderer" s' = OK false) after ->
      py_getitem s "continuationItemRenderer" = OK (snd found')).
Proof.
  rewrite scan_sections_app.
  destruct (scan_sections found before) as [found1|]; simpl; [|done].
  destruct (scan_section found1 s) as [found2|] eqn:Hs; simpl; [|done].
  intros Hafter. unfold scan_section in Hs. split.
  - intros Hin Hnone.
    rewrite (scan_sections_no_items _ _ _ Hnone Hafter).
    rewrite Hin in Hs. simpl in Hs.
    destruct (py_getitem s "itemSectionRenderer") as [item|]; simpl in Hs;
      [|done].
    destruct (py_in "continuationItemRenderer" s) as [has|]; simpl in Hs;
      [|done].
    destruct (if has then _ else _); simpl in Hs; [|done].
    by injection Hs as <-.
  - intros Hin Hnone.
    rewrite (scan_sections_no_continuation _ _ _ Hnone Hafter).
    destruct (py_in "itemSectionRenderer" s) as [has|]; simpl in Hs; [|done].
    destruct (if has then _ else _); simpl in Hs; [|done].
    rewrite Hin in Hs. simpl in Hs.
    destruct (py_getitem s "continuationItemRenderer"); simpl in Hs; [|done].
    by injection Hs as <-.
Qed.

End MoreSections.

(** X1 (instance).  Two item sections: the second one is parsed. *)
Lemma last_section_wins_witness :
  py_getitem (item_section [channel_entry "UC2"]) "itemSectionRenderer"
  = OK (JDict [("contents", JList [channel_entry "UC2"])]).
Proof.
  refine (proj1 (last_section_wins (JNull, JNull)
    [item_section [channel_entry "UC1"] ] (item_section [channel_entry "UC2"])
    [continuation_item (JStr "T1")]
    (JDict [("contents", JList [channel_entry "UC2"])],
     JDict [("continuationEndpoint",
             JDict [("continuationCommand", JDict [("token", JStr "T1")])])])
    _) _ _).
  - reflexivity.
  - reflexivity.
  - repeat constructor.
Defined.

Section MoreSections2.

Context {env : Environment}.

Lemma py_path_app v p q :
  py_path v (p ++ q) = let? x := py_path v p in py_path x q.
Proof.
  revert v. induction p as [|s p IH]; intros v; simpl; [done|].
  destruct (py_step v s); simpl; [apply IH|done].
Qed.

(** a chain of subscripts by keys either succeeds, or stops at a dict that
    lacks the next key, or stops at a value that is not a dict *)
Lemma key_path_outcomes p : forall v,
  Forall (fun s => exists k, s = Key k) p ->
  (exists x, py_path v p = OK x)
  \/ (exists before key after d,
        p = before ++ Key key :: after
        /\ py_path v before = OK (JDict d) /\ assoc key d = None)
  \/ (exists before key after x,
        p = before ++ Key key :: after
        /\ py_path v before = OK x /\ is_dict x = false).
Proof.
  induction p as [|s p IH]; intros v Hkeys; [left; by exists v|].
  inversion Hkeys as [|? ? [k ->] Hrest]; subst.
  destruct (is_dict v) eqn:Hdict.
  - destruct v as [| | | | |d]; try discriminate Hdict.
    destruct (assoc k d) as [x|] eqn:Hk.
    + destruct (IH x Hrest)
        as [[y Hy]|[(before & key & after & d' & -> & Hb & Hnone)
                   |(before & key & after & y & -> & Hb & Hy)]].
      * left. exists y. simpl. by rewrite Hk.
      * right. left. exists (Key k :: before), key, after, d'.
        simpl. by rewrite Hk.
      * right. right. exists (Key k :: before), key, after, y.
        simpl. by rewrite Hk.
    + right. left. by exists [], k, p, d.
  - right. right. by exists [], k, p, v.
Qed.

(** X2.  Which envelope is read.  When the initial path can be followed, its
    sections are used whatever else the document holds.  When the path stops
    at a dict that lacks the next key, whichever of the five keys that is,
    the document is read through the continuation envelope.  When it stops
    at a value that is not a dict, [TypeError] is raised and the
    continuation envelope is not tried, even when the document has one.
    One of the three always applies. *)
Theorem envelope_selection raw :
  (forall sections,
     py_path raw initial_path = OK sections ->
     locate_sections raw = OK sections)
  /\ (forall before key after d,
        initial_path = before ++ Key key :: after ->
        py_path raw before = OK (JDict d) ->
        assoc key d = None ->
        locate_sections raw = py_path raw continuation_path)
  /\ (forall before key after v,
        initial_path = before ++ Key key :: after ->
        py_path raw before = OK v ->
        is_dict v = false ->
        locate_sections raw = Raise TypeError)
  /\ ((exists sections, py_path raw initial_path = OK sections)
      \/ (exists before key after d,
            initial_path = before ++ Key key :: after
            /\ py_path raw before = OK (JDict d) /\ assoc key d = None)
      \/ (exists before key after v,
            initial_path = before ++ Key key :: after
            /\ py_path raw before = OK v /\ is_dict v = false)).
Proof.
  unfold locate_sections. split; [|split; [|split]].
  - by intros sections ->.
  - intros before key after d -> Hbefore Hnone.
    rewrite py_path_app, Hbefore. simpl. by rewrite Hnone.
  - intros before key after v -> Hbefore Hdict.
    rewrite py_path_app, Hbefore. simpl. by destruct v.
  - apply key_path_outcomes. unfold initial_path.
    repeat constructor; by eexists.
Qed.

End MoreSections2.

(** X2 (instance).  A document whose [twoColumnSearchResultsRenderer] is an
    empty dict is read through its continuation envelope; one with a list
    under [contents] raises [TypeError] although it has a continuation
    envelope. *)
Lemma envelope_selection_witness :
  locate_sections empty_renderer_document
  = OK (JList [continuation_item (JStr "T1")])
  /\ locate_sections list_contents_document = Raise TypeError
  /\ py_path list_contents_document continuation_path = OK (JList []).
Proof.
  split; [|split; [|reflexivity]].
  - rewrite (proj1 (proj2 (envelope_selection empty_renderer_document))
               [Key "contents"; Key "twoColumnSearchResultsRenderer"]
               "primaryContents"
               [Key "sectionListRenderer"; Key "contents"] []
               eq_refl eq_refl eq_refl).
    reflexivity.
  - apply (proj1 (proj2 (proj2 (envelope_selection list_contents_document)))
             [Key "contents"] "twoColumnSearchResultsRenderer"
             [Key "primaryContents"; Key "sectionListRenderer"; Key "contents"]
             (JList [])); reflexivity.
Defined.

Section MoreSections3.

Context {env : Environment}.

(** X3.  The tests of the loop body are tried in a fixed order.  An entry
    with a non-empty [ads] list is skipped whatever else it carries; so is
    an entry carrying one of the six skipped renderers, even when it also
    carries a [videoRenderer] or a [channelRenderer]; an entry carrying both
    a [videoRenderer] and a [channelRenderer] is parsed as a video only. *)
Theorem classification_order details ads st :
  ads_of details = OK ads ->
  (truthy ads = true -> parse_details details st = (OK None, st))
  /\ (existsb (fun k => has_key k details) skipped_renderers = true ->
      parse_details details st = (OK None, st))
  /\ (truthy ads = false ->
      existsb (fun k => has_key k details) skipped_renderers = false ->
      has_key "videoRenderer" details = true ->
      parse_details details st
      = (match _parse_video details with
         | OK video => OK (Some (Video video))
         | Raise e => Raise e
         end, st))
  /\ (truthy ads = false ->
      existsb (fun k => has_key k details) skipped_renderers = false ->
      has_key "videoRenderer" details = false ->
      has_key "channelRenderer" details = true ->
      parse_details details st
      = (match _parse_channel details with
         | OK channel => OK (Some (Chan channel))
         | Raise e => Raise e
         end, st)).
Proof.
  intros Hads.
  assert (Hskip : discard_variant details = true ->
                  parse_details details st = (OK None, st)).
  { intros Hd. destruct (discard_outcome _ Hd) as [Hout Hrec].
    rewrite parse_details_spec, Hout. unfold entry_warnings.
    by rewrite Hrec, add_warnings_nil. }
  split; [|split].
  - intros Htruthy. apply Hskip. unfold discard_variant.
    by rewrite Hads, Htruthy.
  - intros Hkeys. apply Hskip. unfold discard_variant.
    rewrite Hads, Hkeys. by destruct (truthy ads).
  - destruct (ads_of_ok_dict _ _ Hads) as [d ->].
    rewrite parse_details_spec.
    unfold entry_warnings, unrecognized, outcome. rewrite Hads. simpl.
    unfold elif_res, has_key, res_bind, py_in.
    split; intros ->; simpl.
    + repeat (case_key; try done).
      all: intros _ _; rewrite add_warnings_nil;
        by destruct (_parse_video (JDict d)).
    + repeat (case_key; try done).
      all: intros _ _ _; rewrite add_warnings_nil;
        by destruct (_parse_channel (JDict d)).
Qed.

End MoreSections3.

(** X3 (instance).  A shelf that also carries a video renderer without any
    field is skipped, not parsed. *)
Lemma classification_order_witness :
  parse_details
    (JDict [("videoRenderer", JDict []); ("shelfRenderer", JDict [])])
    (fresh "q" None)
  = (OK None, fresh "q" None).
Proof.
  apply (proj1 (proj2 (classification_order
           (JDict [("videoRenderer", JDict []); ("shelfRenderer", JDict [])])
           JNull (fresh "q" None) eq_refl))).
  reflexivity.
Defined.

Section MoreSections4.

Context {env : Environment}.

Lemma contents_warnings_ok query entries : forall results found,
  collect results entries = OK found ->
  contents_warnings query entries
  = flat_map (entry_warnings query) entries.
Proof.
  induction entries as [|details rest IH]; intros results found; simpl; [done|].
  destruct (outcome details) as [parsed|]; simpl; [|done].
  intros Hrest. by rewrite (IH _ _ Hrest).
Qed.

Lemma flat_map_warnings_length query entries :
  length (flat_map (entry_warnings query) entries)
  = 4 * length (filter (fun d => unrecognized d = true) entries).
Proof.
  induction entries as [|details rest IH]; simpl; [done|].
  rewrite length_app, IH. unfold entry_warnings.
  rewrite filter_cons. case_decide as Hun.
  - rewrite Hun. simpl. lia.
  - destruct (unrecognized details); [done|]. simpl. lia.
Qed.

(** X4.  When the loop over the entries of a page ends normally it has
    changed nothing but the log: it has appended, for each entry that
    matches no branch and in the order of the entries, four warnings naming
    the entry's keys and the query, and nothing for any other entry. *)
Theorem warnings_of_loop results entries st found st' :
  parse_contents results entries st = (OK found, st') ->
  self st' = self st
  /\ calls st' = calls st
  /\ warnings st'
     = warnings st
       ++ flat_map
            (fun details =>
               if unrecognized details
               then [Unexpected_renderer; Renderer_name (dict_keys details);
                     Search_term (query (self st)); Please_open_issue]
               else [])
            entries
  /\ length (warnings st')
     = length (warnings st)
       + 4 * length (filter (fun d => unrecognized d = true) entries).
Proof.
  rewrite parse_contents_spec. intros [= Hcollect <-]. simpl.
  rewrite (contents_warnings_ok _ _ _ _ Hcollect).
  repeat split; try done.
  by rewrite length_app, flat_map_warnings_length.
Qed.

End MoreSections4.

(** X4 (instance).  One unknown entry between two channels. *)
Lemma warnings_of_loop_witness :
  warnings (snd (parse_contents []
                   [channel_entry "UC1"; unknown_entry; channel_entry "UC2"]
                   (fresh "q" None)))
  = [Unexpected_renderer; Renderer_name ["reelShelfRenderer"];
     Search_term "q"; Please_open_issue].
Proof.
  refine (proj1 (proj2 (proj2 (warnings_of_loop []
    [channel_entry "UC1"; unknown_entry; channel_entry "UC2"]
    (fresh "q" None) [channel_result "UC1"; channel_result "UC2"]
    (snd (parse_contents []
            [channel_entry "UC1"; unknown_entry; channel_entry "UC2"]
            (fresh "q" None))) _)))).
  reflexivity.
Defined.

(** * Further facts: what the operations change *)

Section OperationEffects.

Context {env : Environment}.

Section Operations.

Variable search : client.

Lemma completion_suggestions_cached st :
  truthy (_completion_suggestions (self st)) = true ->
  completion_suggestions search st = (OK (_completion_suggestions (self st)), st).
Proof.
  intros Hc. unfold completion_suggestions, bind, read, ret. simpl.
  by rewrite Hc.
Qed.

Lemma completion_suggestions_compute st :
  truthy (_completion_suggestions (self st)) = false ->
  completion_suggestions search st
  = match results search st with
    | (OK found, st1) =>
        if truthy_list found then
          match py_getitem (_initial_results (self st1)) "refinements" with
          | OK v => (OK v, with_suggestions v st1)
          | Raise e => (Raise e, st1)
          end
        else (OK (_completion_suggestions (self st1)), st1)
    | (Raise e, st1) => (Raise e, st1)
    end.
Proof.
  intros Hc. unfold completion_suggestions.
  unfold bind at 1, read at 1. simpl. rewrite Hc. unfold bind at 1.
  destruct (results search st) as [[found|e] st1]; [|done].
  destruct (truthy_list found); [|done].
  unfold bind, read, lift, update, ret. simpl.
  by destruct (py_getitem (_initial_results (self st1)) "refinements").
Qed.

(** what an access to [results] does to the fields, in every case *)
Lemma results_effect st :
  let st' := snd (results search st) in
  query (self st') = query (self st)
  /\ param (self st') = param (self st)
  /\ _completion_suggestions (self st') = _completion_suggestions (self st)
  /\ (truthy (_initial_results (self st)) = true ->
      _initial_results (self st') = _initial_results (self st))
  /\ ((st' = st /\ truthy_list (_results (self st)) = true)
      \/ (calls st' = calls st ++ [JNull]
          /\ truthy_list (_results (self st)) = false
          /\ (is_ok (fst (results search st)) = false ->
              _results (self st') = _results (self st)
              /\ _current_continuation (self st')
                 = _current_continuation (self st))
          /\ (is_ok (fst (results search st)) = true ->
              truthy (_initial_results (self st')) = true))).
Proof.
  simpl. destruct (truthy_list (_results (self st))) eqn:Hcached.
  - rewrite results_cached by done. simpl. repeat split; try done. by left.
  - rewrite results_fetch by done.
    pose proof (fetch_and_parse_frame search JNull st)
      as (Hcalls&Hq&Hp&Hres&Hsugg&Htok&Hself).
    pose proof (fetch_and_parse_ok search JNull st) as Hok.
    destruct (fetch_and_parse search JNull st) as [[page|e] st1]; simpl in *.
    + repeat split; try done.
      * intros Hinit. by rewrite (Hself Hinit).
      * right. repeat split; try done. intros _. by eapply Hok.
    + repeat split; try done.
      * intros Hinit. by rewrite (Hself Hinit).
      * right. repeat split; done.
Qed.

End Operations.

Section MoreOperations.

Variable search : client.

Lemma get_next_results_effect st :
  truthy (_current_continuation (self st)) = true ->
  let st' := snd (get_next_results search st) in
  calls st' = calls st ++ [_current_continuation (self st)]
  /\ query (self st') = query (self st)
  /\ param (self st') = param (self st)
  /\ _completion_suggestions (self st') = _completion_suggestions (self st)
  /\ (truthy (_initial_results (self st)) = true ->
      _initial_results (self st') = _initial_results (self st))
  /\ (is_ok (fst (get_next_results search st)) = false ->
      _results (self st') = _results (self st)
      /\ _current_continuation (self st') = _current_continuation (self st))
  /\ (is_ok (fst (get_next_results search st)) = true ->
      exists have more,
        _results (self st) = Some have
        /\ _results (self st') = Some (have ++ more)).
Proof.
  intros Htok. simpl. rewrite get_next_results_fetch by done.
  pose proof (fetch_and_parse_frame search (_current_continuation (self st)) st)
    as (Hcalls&Hq&Hp&Hres&Hsugg&Htoken&Hself).
  destruct (fetch_and_parse search _ st) as [[page|e] st1]; simpl in *.
  - rewrite Hres.
    destruct (_results (self st)) as [have|]; [destruct (fst page) as [more|]|];
      simpl; repeat split; try done.
    all: try (intros Hinit; by rewrite (Hself Hinit)).
    intros _. by exists have, more.
  - repeat split; try done. intros Hinit. by rewrite (Hself Hinit).
Qed.

End MoreOperations.

End OperationEffects.

(** * Further facts: fetching *)

Section MoreFetching.

Context {env : Environment}.

(** X5.  None of the three operations changes the query or the filter, and
    each calls the client at most once: with no continuation for the two
    properties, with the stored continuation for [get_next_results]. *)
Theorem operations_and_the_client search op st :
  query (self (snd (perform search op st))) = query (self st)
  /\ param (self (snd (perform search op st))) = param (self st)
  /\ (calls (snd (perform search op st)) = calls st
      \/ calls (snd (perform search op st))
         = calls st ++ [continuation_of op st]).
Proof.
  assert (Hres : forall st0,
    query (self (snd (results search st0))) = query (self st0)
    /\ param (self (snd (results search st0))) = param (self st0)
    /\ (calls (snd (results search st0)) = calls st0
        \/ calls (snd (results search st0)) = calls st0 ++ [JNull])).
  { intros st0. destruct (results_effect search st0) as (Hq&Hp&_&_&Hcases).
    simpl in *. repeat split; try done.
    destruct Hcases as [[-> _]|(Hcalls&_)]; [by left|by right]. }
  destruct op; simpl.
  - apply Hres.
  - destruct (truthy (_current_continuation (self st))) eqn:Htok.
    + destruct (get_next_results_effect search st Htok) as (Hcalls&Hq&Hp&_).
      simpl in *. repeat split; try done. by right.
    + rewrite get_next_results_exhausted by done. simpl.
      repeat split; try done. by left.
  - destruct (truthy (_completion_suggestions (self st))) eqn:Hc.
    + rewrite completion_suggestions_cached by done. simpl.
      repeat split; try done. by left.
    + rewrite completion_suggestions_compute by done.
      destruct (Hres st) as (Hq&Hp&Hcalls).
      destruct (results search st) as [[found|e] st1]; simpl in *; [|done].
      destruct (truthy_list found); [|done].
      by destruct (py_getitem (_initial_results (self st1)) "refinements").
Qed.

(** X6.  A failed fetch loses nothing: when an access to [results] or a
    call of [get_next_results] raises, whatever the reason, the accumulated
    results, the continuation and the cached suggestions are what they were
    before, so the call can be repeated. *)
Theorem failed_fetch_keeps_results search op st :
  op <> Access_completion_suggestions ->
  fst (perform search op st) = false ->
  _results (self (snd (perform search op st))) = _results (self st)
  /\ _current_continuation (self (snd (perform search op st)))
     = _current_continuation (self st)
  /\ _completion_suggestions (self (snd (perform search op st)))
     = _completion_suggestions (self st).
Proof.
  intros Hop. destruct op; [| |done]; simpl.
  - intros Hfail. destruct (results_effect search st) as (_&_&Hsugg&_&Hcases).
    simpl in *. destruct Hcases as [[Hsame Hcached]|(_&_&Hkeep&_)].
    + by rewrite Hsame.
    + destruct (Hkeep Hfail). done.
  - intros Hfail. destruct (truthy (_current_continuation (self st))) eqn:Htok.
    + destruct (get_next_results_effect search st Htok)
        as (_&_&_&Hsugg&_&Hkeep&_).
      simpl in *. destruct (Hkeep Hfail). done.
    + by rewrite get_next_results_exhausted.
Qed.

End MoreFetching.

(** X6 (instance).  The client is out of order when the second page is
    asked for. *)
Lemma failed_fetch_keeps_results_witness :
  _results (self (snd (perform (failing_client "offline")
                         Call_get_next_results
                         (snd (results two_pages (fresh "q" None))))))
  = Some [channel_result "UC1"]
  /\ _current_continuation
       (self (snd (perform (failing_client "offline") Call_get_next_results
                     (snd (results two_pages (fresh "q" None))))))
     = JStr "T1".
Proof.
  destruct (failed_fetch_keeps_results (failing_client "offline")
              Call_get_next_results (snd (results two_pages (fresh "q" None))))
    as (Hres & Htok & _); [done|reflexivity|].
  rewrite Hres, Htok. split; reflexivity.
Defined.

Section MoreFetching2.

Context {env : Environment}.

(** X7.  [get_next_results] needs a list on both sides.  With a
    continuation held, if the page is fetched and parsed but the session has
    no result list (the first page had no item section), the call raises
    [AttributeError]; if the session has one but the page has none, it
    raises [TypeError].  In both cases the client has been called, the
    fetched page is dropped and the continuation is not advanced. *)
Theorem get_next_results_needs_lists search st page st1 :
  truthy (_current_continuation (self st)) = true ->
  fetch_and_parse search (_current_continuation (self st)) st = (OK page, st1) ->
  (_results (self st) = None ->
   get_next_results search st = (Raise AttributeError, st1))
  /\ (forall have,
        _results (self st) = Some have -> fst page = None ->
        get_next_results search st = (Raise TypeError, st1))
  /\ calls st1 = calls st ++ [_current_continuation (self st)]
  /\ _results (self st1) = _results (self st)
  /\ _current_continuation (self st1) = _current_continuation (self st).
Proof.
  intros Htok Hfetch.
  pose proof (fetch_and_parse_frame search (_current_continuation (self st)) st)
    as (Hcalls&_&_&Hres&_&Htoken&_).
  rewrite get_next_results_fetch by done.
  rewrite Hfetch in *. simpl in *. rewrite Hres.
  repeat split; try done.
  - by intros ->.
  - by intros have -> ->.
Qed.

End MoreFetching2.

(** X7 (instance).  After a first page that has a continuation item and no
    item section, [get_next_results] calls the client and raises
    [AttributeError]. *)
Lemma get_next_results_needs_lists_witness :
  _results (self token_only_session) = None
  /\ fst (get_next_results (constant_client token_only_page) token_only_session)
     = Raise AttributeError
  /\ calls (snd (get_next_results (constant_client token_only_page)
                   token_only_session))
     = [JNull; JStr "T1"].
Proof.
  destruct (get_next_results_needs_lists (constant_client token_only_page)
              token_only_session (None, JStr "T1")
              (snd (fetch_and_parse (constant_client token_only_page)
                      (JStr "T1") token_only_session)))
    as (Hnone & _); [reflexivity|reflexivity|].
  rewrite Hnone by reflexivity. repeat split; reflexivity.
Defined.

Section MoreFetching3.

Context {env : Environment}.

(** X8.  An error of the client reaches the caller unchanged: whichever
    operation made the call raises the client's exception, the call is
    logged, and the session object is exactly what it was. *)
Theorem client_error_propagates search st continuation e :
  search (query (self st)) (param (self st)) continuation (length (calls st))
    = Raise e ->
  (continuation = JNull -> truthy_list (_results (self st)) = false ->
   results search st = (Raise e, called JNull st))
  /\ (continuation = _current_continuation (self st) ->
      truthy continuation = true ->
      get_next_results search st = (Raise e, called continuation st))
  /\ (continuation = JNull -> truthy_list (_results (self st)) = false ->
      truthy (_completion_suggestions (self st)) = false ->
      completion_suggestions search st = (Raise e, called JNull st))
  /\ self (called continuation st) = self st.
Proof.
  intros Hsearch.
  assert (Hfetch : fetch_and_parse search continuation st
                   = (Raise e, called continuation st)).
  { by rewrite fetch_and_parse_spec, Hsearch. }
  assert (Hres : continuation = JNull ->
                 truthy_list (_results (self st)) = false ->
                 results search st = (Raise e, called JNull st)).
  { intros -> Hempty. rewrite results_fetch by done. by rewrite Hfetch. }
  repeat split; try done.
  - intros -> Htok. rewrite get_next_results_fetch by done. by rewrite Hfetch.
  - intros Hnull Hempty Hc. rewrite completion_suggestions_compute by done.
    by rewrite Hres.
Qed.

End MoreFetching3.

(** X8 (instance).  A new session and a client that is out of order. *)
Lemma client_error_propagates_witness :
  completion_suggestions (failing_client "offline") (fresh "q" None)
  = (Raise (ClientError "offline"), called JNull (fresh "q" None)).
Proof.
  apply (client_error_propagates (failing_client "offline") (fresh "q" None)
           JNull (ClientError "offline")); reflexivity.
Defined.

Section MoreFetching4.

Context {env : Environment}.

(** X9.  The accumulated results only grow: a non-empty accumulated list is
    a prefix of the accumulated list after any of the three operations,
    whether the operation returns or raises. *)
Theorem accumulated_results_only_grow search op st have :
  _results (self st) = Some have -> have <> [] ->
  exists more,
    _results (self (snd (perform search op st))) = Some (have ++ more).
Proof.
  intros Hhave Hne.
  assert (Hcached : truthy_list (_results (self st)) = true).
  { rewrite Hhave. by destruct have. }
  assert (Hsame : exists more, _results (self st) = Some (have ++ more)).
  { exists []. by rewrite app_nil_r. }
  destruct op; simpl.
  - by rewrite results_cached.
  - destruct (truthy (_current_continuation (self st))) eqn:Htok;
      [|by rewrite get_next_results_exhausted].
    destruct (get_next_results_effect search st Htok)
      as (_&_&_&_&_&Hfail&Hok). simpl in *.
    destruct (is_ok (fst (get_next_results search st))).
    + destruct Hok as (have' & more & Hbefore & Hafter); [done|].
      rewrite Hhave in Hbefore. injection Hbefore as <-. by exists more.
    + destruct Hfail as [-> _]; done.
  - destruct (truthy (_completion_suggestions (self st))) eqn:Hc.
    + by rewrite completion_suggestions_cached.
    + rewrite completion_suggestions_compute by done.
      rewrite results_cached by done. rewrite Hcached.
      by destruct (py_getitem (_initial_results (self st)) "refinements").
Qed.

End MoreFetching4.

(** X9 (instance).  One channel held, one more fetched. *)
Lemma accumulated_results_only_grow_witness :
  exists more,
    _results (self (snd (perform two_pages Call_get_next_results
                           (snd (results two_pages (fresh "q" None))))))
    = Some ([channel_result "UC1"] ++ more).
Proof.
  apply (accumulated_results_only_grow two_pages Call_get_next_results
           (snd (results two_pages (fresh "q" None))) [channel_result "UC1"]);
    [reflexivity|discriminate].
Defined.

Section MoreFetching5.

Context {env : Environment}.

Lemma fetch_more_exhausted search n : forall st,
  truthy (_current_continuation (self st)) = false ->
  fetch_more search n st = st.
Proof.
  induction n as [|n IH]; intros st Htok; simpl; [done|].
  rewrite get_next_results_exhausted by done. simpl. by apply IH.
Qed.

(** X19.  Pagination ends.  When a call of [get_next_results] returns after
    fetching a page that has no continuation token, the session is
    exhausted: the next call raises [IndexError], and no number of further
    calls reaches the client or changes the session. *)
Theorem pagination_ends search st videos st1 n :
  fst (fetch_and_parse search (_current_continuation (self st)) st)
    = OK (Some videos, JNull) ->
  get_next_results search st = (OK tt, st1) ->
  get_next_results search st1 = (Raise IndexError, st1)
  /\ fetch_more search n st1 = st1
  /\ calls (fetch_more search n st1)
     = calls st ++ [_current_continuation (self st)].
Proof.
  intros Hpage Hnext.
  destruct (get_next_results_extends search _ _ _ _ Hpage Hnext)
    as (have & _ & _ & Htok).
  assert (Hfalsy : truthy (_current_continuation (self st1)) = false)
    by (by rewrite Htok).
  rewrite fetch_more_exhausted by done.
  repeat split; try done.
  - by apply get_next_results_exhausted.
  - destruct (truthy (_current_continuation (self st))) eqn:Htruthy.
    + destruct (get_next_results_effect search st Htruthy) as (Hcalls&_).
      by rewrite Hnext in Hcalls.
    + by rewrite get_next_results_exhausted in Hnext.
Qed.

End MoreFetching5.

(** X19 (instance).  The second page of two has no continuation item. *)
Lemma pagination_ends_witness :
  fetch_more two_pages 3
    (snd (get_next_results two_pages (snd (results two_pages (fresh "q" None)))))
  = snd (get_next_results two_pages (snd (results two_pages (fresh "q" None)))).
Proof.
  apply (pagination_ends two_pages (snd (results two_pages (fresh "q" None)))
           [channel_result "UC2"]
           (snd (get_next_results two_pages
                   (snd (results two_pages (fresh "q" None)))))
           3); reflexivity.
Defined.

(** * Further facts: invariants of sessions *)

Section MoreInvariants.

Context {env : Environment}.

Lemma starts_with_initial_query_calls st c :
  starts_with_initial_query st ->
  (calls st = [] -> c = JNull) ->
  forall st', calls st' = calls st ++ [c] -> starts_with_initial_query st'.
Proof.
  unfold starts_with_initial_query. intros Hst Hc st' ->.
  destruct (calls st) as [|first rest]; simpl; [by apply Hc|done].
Qed.

Section FirstCall.

Variable search : client.

Lemma results_starts_with_initial_query st :
  starts_with_initial_query st ->
  starts_with_initial_query (snd (results search st)).
Proof.
  intros Hst. destruct (results_effect search st) as (_&_&_&_&Hcases).
  simpl in *. destruct Hcases as [[-> _]|(Hcalls&_)]; [done|].
  by eapply starts_with_initial_query_calls.
Qed.

Lemma get_next_results_starts_with_initial_query st :
  starts_with_initial_query st ->
  starts_with_initial_query (snd (get_next_results search st)).
Proof.
  intros Hst. destruct (truthy (_current_continuation (self st))) eqn:Htok;
    [|by rewrite get_next_results_exhausted].
  destruct (get_next_results_effect search st Htok) as (Hcalls&_).
  eapply starts_with_initial_query_calls; [done| |exact Hcalls].
  intros Hnone. unfold starts_with_initial_query in Hst.
  rewrite Hnone in Hst. destruct Hst as (_&_&_&Hblank).
  by rewrite Hblank in Htok.
Qed.

Lemma completion_suggestions_starts_with_initial_query st :
  starts_with_initial_query st ->
  starts_with_initial_query (snd (completion_suggestions search st)).
Proof.
  intros Hst. destruct (truthy (_completion_suggestions (self st))) eqn:Hc;
    [by rewrite completion_suggestions_cached|].
  rewrite completion_suggestions_compute by done.
  pose proof (results_starts_with_initial_query st Hst) as Hst1.
  pose proof (results_stored search st) as Hstored.
  destruct (results search st) as [[found|e] st1]; simpl in *; [|done].
  destruct (truthy_list found) eqn:Hfound; [|done].
  destruct (py_getitem (_initial_results (self st1)) "refinements"); [|done].
  unfold starts_with_initial_query in *. simpl.
  destruct (calls st1); [|done].
  destruct Hst1 as (_&Hnone&_). rewrite (Hstored _ _ eq_refl) in Hnone.
  by rewrite Hnone in Hfound.
Qed.

End FirstCall.

(** X10.  On every session that has been driven through [results],
    [get_next_results] and [completion_suggestions] only, the first call the
    client has received asks for the initial page (no continuation); and as
    long as the client has not been called the session holds nothing: no
    first document, no results, no suggestions, no continuation.  The
    restriction to the three operations matters: [fetch_and_parse] and
    [fetch_query], called directly on a new session, hand the client the
    continuation they are given. *)
Theorem first_call_is_initial_query search :
  (forall st,
     reachable search st ->
     (forall first rest, calls st = first :: rest -> first = JNull)
     /\ (calls st = [] ->
         _initial_results (self st) = JNull
         /\ _results (self st) = None
         /\ _completion_suggestions (self st) = JNull
         /\ _current_continuation (self st) = JNull))
  /\ (forall continuation query param,
        calls (snd (fetch_and_parse search continuation (fresh query param)))
        = [continuation]
        /\ calls (snd (fetch_query search continuation (fresh query param)))
           = [continuation]).
Proof.
  split.
  - intros st Hreach.
    assert (Hst : starts_with_initial_query st).
    { induction Hreach.
      - done.
      - by apply results_starts_with_initial_query.
      - by apply get_next_results_starts_with_initial_query.
      - by apply completion_suggestions_starts_with_initial_query. }
    unfold starts_with_initial_query in Hst. split.
    + intros first rest Hcalls. by rewrite Hcalls in Hst.
    + intros Hcalls. by rewrite Hcalls in Hst.
  - intros continuation query param. split.
    + by destruct (fetch_and_parse_frame search continuation
                     (fresh query param)) as [-> _].
    + rewrite fetch_query_spec. by destruct (search _ _ _ _).
Qed.

End MoreInvariants.

(** X10 (instance).  After the first page and one continuation page the
    client has been called twice, first for the initial page; and
    [get_next_results] on a new session raises without calling the client,
    so that the session still holds no document. *)
Lemma first_call_is_initial_query_witness :
  (exists rest,
     calls (snd (get_next_results two_pages
                   (snd (results two_pages (fresh "q" None)))))
     = JNull :: rest
     /\ length rest = 1)
  /\ _initial_results (self (snd (get_next_results two_pages (fresh "q" None))))
     = JNull.
Proof.
  split.
  - destruct (calls (snd (get_next_results two_pages
                            (snd (results two_pages (fresh "q" None))))))
      as [|first rest] eqn:Hcalls; [discriminate Hcalls|].
    exists rest. split; [|by injection Hcalls as _ <-].
    f_equal.
    apply (proj1 (proj1 (first_call_is_initial_query two_pages)
                    (snd (get_next_results two_pages
                            (snd (results two_pages (fresh "q" None)))))
                    ltac:(apply reach_next, reach_results, reach_fresh))
             first rest Hcalls).
  - apply (proj2 (proj1 (first_call_is_initial_query two_pages)
                    (snd (get_next_results two_pages (fresh "q" None)))
                    ltac:(apply reach_next, reach_fresh))
             eq_refl).
Defined.

Section MoreInvariants2.

Context {env : Environment}.

Section SuggestionsInvariant.

Variable search : client.

Lemma suggestions_from_first_stored st st' :
  suggestions_from_first st ->
  _completion_suggestions (self st') = _completion_suggestions (self st) ->
  (truthy (_initial_results (self st)) = true ->
   _initial_results (self st') = _initial_results (self st)) ->
  suggestions_from_first st'.
Proof.
  unfold suggestions_from_first. intros [Hnull|Href] Hsugg Hinit.
  - left. by rewrite Hsugg.
  - right. rewrite Hsugg, Hinit; [done|]. by eapply getitem_ok_truthy.
Qed.

Lemma results_suggestions_invariant st :
  suggestions_invariant st -> suggestions_invariant (snd (results search st)).
Proof.
  intros [[Htok Hres] Hsugg].
  pose proof (results_first_stored search st Htok) as Htok'.
  destruct (results_effect search st) as (_&_&Hcache&Hinit&Hcases).
  simpl in *. split; [split|].
  - exact Htok'.
  - destruct Hcases as [[-> _]|(_&Hempty&Hfail&Hok)]; [done|].
    destruct (is_ok (fst (results search st))); [intros _; by apply Hok|].
    destruct (Hfail eq_refl) as [-> _]. by rewrite Hempty.
  - by eapply suggestions_from_first_stored.
Qed.

Lemma get_next_results_suggestions_invariant st :
  suggestions_invariant st ->
  suggestions_invariant (snd (get_next_results search st)).
Proof.
  intros Hst.
  destruct (truthy (_current_continuation (self st))) eqn:Htruthy;
    [|by rewrite get_next_results_exhausted].
  destruct Hst as [[Htok Hres] Hsugg].
  destruct (get_next_results_effect search st Htruthy)
    as (_&_&_&Hcache&Hinit&_). simpl in *.
  specialize (Hinit (Htok Htruthy)).
  split; [split|].
  - intros _. rewrite Hinit. by apply Htok.
  - intros _. rewrite Hinit. by apply Htok.
  - by eapply suggestions_from_first_stored.
Qed.

Lemma completion_suggestions_suggestions_invariant st :
  suggestions_invariant st ->
  suggestions_invariant (snd (completion_suggestions search st)).
Proof.
  intros Hst. destruct (truthy (_completion_suggestions (self st))) eqn:Hc;
    [by rewrite completion_suggestions_cached|].
  rewrite completion_suggestions_compute by done.
  pose proof (results_suggestions_invariant st Hst) as Hst1.
  destruct (results search st) as [[found|e] st1]; simpl in *; [|done].
  destruct (truthy_list found); [|done].
  destruct (py_getitem (_initial_results (self st1)) "refinements") as [v|]
    eqn:Href; [|done].
  destruct Hst1 as [[Htok Hres] _]. split; [split|]; simpl; try done.
  by right.
Qed.

Lemma reachable_suggestions_invariant st :
  reachable search st -> suggestions_invariant st.
Proof.
  induction 1.
  - split; [split; intros H; discriminate H|by left].
  - by apply results_suggestions_invariant.
  - by apply get_next_results_suggestions_invariant.
  - by apply completion_suggestions_suggestions_invariant.
Qed.

End SuggestionsInvariant.

(** X11.  On every session a caller can hold, the cached suggestions are
    either [None] or the [refinements] of the stored first document, and a
    first document is stored whenever results or a continuation are held.
    So whatever [completion_suggestions] returns is [None] or the
    refinements of the first document. *)
Theorem suggestions_come_from_first_document search st :
  reachable search st ->
  suggestions_from_first st
  /\ first_document_held st
  /\ (forall v st',
        completion_suggestions search st = (OK v, st') ->
        v = JNull
        \/ py_getitem (_initial_results (self st')) "refinements" = OK v).
Proof.
  intros Hreach.
  destruct (reachable_suggestions_invariant search st Hreach) as [Hheld Hfrom].
  repeat split; try done; try apply Hheld.
  intros v st' Hcs.
  assert (Hv : v = _completion_suggestions (self st')).
  { revert Hcs. unfold completion_suggestions, bind, read, ret. simpl.
    destruct (truthy (_completion_suggestions (self st)));
      [by intros [= <- <-]|].
    destruct (results search st) as [[found|e] st1]; [|done].
    destruct (truthy_list found); simpl.
    - unfold lift, update.
      destruct (py_getitem (_initial_results (self st1)) "refinements");
        simpl; [|done].
      by intros [= <- <-].
    - by intros [= <- <-]. }
  assert (Hreach' : reachable search st').
  { replace st' with (snd (completion_suggestions search st))
      by (by rewrite Hcs).
    by constructor. }
  destruct (reachable_suggestions_invariant search st' Hreach') as [_ Hfrom'].
  rewrite Hv. exact Hfrom'.
Qed.

End MoreInvariants2.

(** X11 (instance).  After a first page with one result. *)
Lemma suggestions_come_from_first_document_witness :
  suggestions_from_first
    (snd (completion_suggestions (constant_client one_channel_page)
            (fresh "q" None))).
Proof.
  apply (suggestions_come_from_first_document
           (constant_client one_channel_page)).
  apply reach_suggestions, reach_fresh.
Defined.

Section MoreInvariants3.

Context {env : Environment}.

(** X12.  The first access to [completion_suggestions] on a new session
    runs the initial query.  If the page yields at least one result, the
    access returns the [refinements] of the fetched document and caches
    them, and raises the lookup error when the document has none; if the
    page yields no result, it returns [None] and caches nothing. *)
Theorem suggestions_first_access search q p found st1 :
  results search (fresh q p) = (OK found, st1) ->
  calls st1 = [JNull]
  /\ search q p JNull 0 = OK (_initial_results (self st1))
  /\ (truthy_list found = true ->
      completion_suggestions search (fresh q p)
      = match py_getitem (_initial_results (self st1)) "refinements" with
        | OK v => (OK v, with_suggestions v st1)
        | Raise e => (Raise e, st1)
        end)
  /\ (truthy_list found = false ->
      completion_suggestions search (fresh q p) = (OK JNull, st1)).
Proof.
  intros Hres.
  assert (Hcs : completion_suggestions search (fresh q p)
    = if truthy_list found then
        match py_getitem (_initial_results (self st1)) "refinements" with
        | OK v => (OK v, with_suggestions v st1)
        | Raise e => (Raise e, st1)
        end
      else (OK (_completion_suggestions (self st1)), st1)).
  { rewrite completion_suggestions_compute by done. by rewrite Hres. }
  destruct (results_effect search (fresh q p)) as (_&_&Hsugg&_&Hcases).
  rewrite Hres in *. simpl in *.
  destruct Hcases as [[_ Hc]|(Hcalls&_)]; [done|].
  repeat split.
  - done.
  - by eapply first_results_store_document.
  - intros Hfound. by rewrite Hcs, Hfound.
  - intros Hfound. by rewrite Hcs, Hfound, Hsugg.
Qed.

End MoreInvariants3.

(** X12 (instance).  A first page with one channel and one suggestion. *)
Lemma suggestions_first_access_witness :
  completion_suggestions (constant_client one_channel_page) (fresh "q" None)
  = (OK (JList [JStr "a suggestion"]),
     with_suggestions (JList [JStr "a suggestion"])
       (snd (results (constant_client one_channel_page) (fresh "q" None)))).
Proof.
  refine (proj1 (proj2 (proj2 (suggestions_first_access
    (constant_client one_channel_page) "q" None
    (Some [channel_result "UC1"])
    (snd (results (constant_client one_channel_page) (fresh "q" None)))
    _))) _); reflexivity.
Defined.

(** * Further facts: videos and channels *)

Section VideosAndChannels.

Context {env : Environment}.

Lemma bind_ok {A B : Type} (r : res A) (k : A -> res B) y :
  res_bind r k = OK y <-> exists x, r = OK x /\ k x = OK y.
Proof.
  destruct r as [x|e]; simpl.
  - split; [by eauto|]. by intros (x' & [= <-] & Hk).
  - split; [done|]. by intros (x' & Hx & _).
Qed.

(** X13.  [_parse_video] returns a video exactly when all the extractions
    succeed (the video id, the title and owner texts, the owner's URL, the
    view count and the length) and [YouTube(url)] accepts the URL made from
    the id.  The object returned is built from three of them only (id, owner
    text, title), so an entry without the owner's URL or with an unreadable
    view count is refused although neither value is kept.  The constructor
    is called last: a failed extraction is raised as it is, and when all
    succeed and the constructor raises, that exception is what
    [_parse_video] raises.  A renderer without [lengthText] is no obstacle:
    its length is [None]. *)
Theorem parse_video_needs_all_fields details :
  (forall video,
   _parse_video details = OK video <->
   exists renderer id words name uri count length,
     py_getitem details "videoRenderer" = OK renderer
     /\ py_getitem renderer "videoId" = OK id
     /\ py_path renderer [Key "title"; Key "runs"; First; Key "text"] = OK words
     /\ py_path renderer [Key "ownerText"; Key "runs"; First; Key "text"]
        = OK name
     /\ py_path renderer
          [Key "ownerText"; Key "runs"; First; Key "navigationEndpoint";
           Key "commandMetadata"; Key "webCommandMetadata"; Key "url"]
        = OK uri
     /\ view_count renderer = OK count
     /\ video_length renderer = OK length
     /\ YouTube_rejects (WatchUrl id) = None
     /\ video = mkYouTube (WatchUrl id) name words)
  /\ (forall e,
        video_details_metadata details = Raise e ->
        _parse_video details = Raise e)
  /\ (forall m name,
        video_details_metadata details = OK m ->
        YouTube_rejects (md_url m) = Some name ->
        _parse_video details = Raise (PytubeError name))
  /\ (forall r, assoc "lengthText" r = None -> video_length (JDict r) = OK JNull).
Proof.
  split; [|split; [|split]].
  - intros video. unfold _parse_video, video_details_metadata. split.
    + intros H.
      apply bind_ok in H as (m & H & Hv).
      apply bind_ok in H as (renderer & Hr & H).
      apply bind_ok in H as (id & Hid & H).
      apply bind_ok in H as (words & Hw & H).
      apply bind_ok in H as (name & Hn & H).
      apply bind_ok in H as (uri & Hu & H).
      apply bind_ok in H as (count & Hc & H).
      apply bind_ok in H as (length & Hl & H).
      injection H as <-. simpl in Hv. unfold construct in Hv.
      destruct (YouTube_rejects (WatchUrl id)) eqn:Haccepted; [done|].
      injection Hv as <-.
      by exists renderer, id, words, name, uri, count, length.
    + intros (renderer & id & words & name & uri & count & length
              & Hr & Hid & Hw & Hn & Hu & Hc & Hl & Haccepted & ->).
      rewrite Hr. unfold res_bind at 2. rewrite Hid. unfold res_bind at 2.
      rewrite Hw. unfold res_bind at 2.
      change (owner_run ++ [Key "text"])
        with [Key "ownerText"; Key "runs"; First; Key "text"].
      rewrite Hn. unfold res_bind at 2.
      change (owner_run ++ _)
        with [Key "ownerText"; Key "runs"; First; Key "navigationEndpoint";
              Key "commandMetadata"; Key "webCommandMetadata"; Key "url"].
      rewrite Hu. unfold res_bind at 2. rewrite Hc. unfold res_bind at 2.
      rewrite Hl. simpl. by rewrite Haccepted.
  - intros e He. unfold _parse_video. by rewrite He.
  - intros m name Hm Hrejected. unfold _parse_video. rewrite Hm. simpl.
    by rewrite Hrejected.
  - intros r Hnone. unfold video_length. simpl. by rewrite Hnone.
Qed.

End VideosAndChannels.

(** X13 (instance).  A well-formed entry with a view count and no length;
    and the same entry under the id ["v1"], which the constructor
    refuses. *)
Lemma parse_video_needs_all_fields_witness :
  (exists renderer id words name uri count length,
     py_getitem (video_entry "a1b2c3d4e5f" "12 views") "videoRenderer"
     = OK renderer
     /\ py_getitem renderer "videoId" = OK id
     /\ py_path renderer [Key "title"; Key "runs"; First; Key "text"] = OK words
     /\ py_path renderer [Key "ownerText"; Key "runs"; First; Key "text"]
        = OK name
     /\ py_path renderer
          [Key "ownerText"; Key "runs"; First; Key "navigationEndpoint";
           Key "commandMetadata"; Key "webCommandMetadata"; Key "url"]
        = OK uri
     /\ view_count renderer = OK count
     /\ video_length renderer = OK length
     /\ YouTube_rejects (WatchUrl id) = None
     /\ mkYouTube (WatchUrl (JStr "a1b2c3d4e5f")) (JStr "an owner")
          (JStr "a title")
        = mkYouTube (WatchUrl id) name words)
  /\ _parse_video (video_entry "v1" "12 views")
     = Raise (PytubeError "RegexMatchError").
Proof.
  split.
  - apply (proj1 (proj1 (parse_video_needs_all_fields
                           (video_entry "a1b2c3d4e5f" "12 views"))
                    (mkYouTube (WatchUrl (JStr "a1b2c3d4e5f"))
                       (JStr "an owner") (JStr "a title")))).
    reflexivity.
  - destruct (video_details_metadata
                (video_entry "v1" "12 views")) as [m|e] eqn:Hm;
      [|discriminate Hm].
    apply (proj1 (proj2 (proj2 (parse_video_needs_all_fields
                                  (video_entry "v1" "12 views"))))
             m "RegexMatchError" Hm).
    vm_compute in Hm. by injection Hm as <-.
Defined.

Section VideosAndChannels2.

Context {env : Environment}.

Lemma parse_channel_entries ids : forall results st,
  Forall (fun id => Channel_rejects (ChannelUrl (JStr id)) = None) ids ->
  parse_contents results (map channel_entry ids) st
  = (OK (results ++ map channel_result ids), st).
Proof.
  induction ids as [|id ids IH]; intros results st Hall; simpl.
  - by rewrite app_nil_r.
  - inversion Hall as [|? ? Hid Hids]; subst.
    unfold bind. rewrite parse_details_spec.
    assert (outcome (channel_entry id) = OK (Some (channel_result id)))
      as ->.
    { unfold outcome, _parse_channel. simpl. by rewrite Hid. }
    assert (entry_warnings (query (self st)) (channel_entry id) = [])
      as -> by reflexivity.
    rewrite add_warnings_nil, IH by done. by rewrite <- app_assoc.
Qed.

Lemma parse_rejected_channel before id after name results st :
  Forall (fun id => Channel_rejects (ChannelUrl (JStr id)) = None) before ->
  Channel_rejects (ChannelUrl (JStr id)) = Some name ->
  parse_contents results (map channel_entry (before ++ id :: after)) st
  = (Raise (PytubeError name), st).
Proof.
  intros Hbefore Hid.
  rewrite map_app, parse_contents_app, parse_channel_entries by done.
  simpl. unfold bind. rewrite parse_details_spec.
  assert (outcome (channel_entry id) = Raise (PytubeError name)) as ->.
  { unfold outcome, _parse_channel. simpl. by rewrite Hid. }
  assert (entry_warnings (query (self st)) (channel_entry id) = [])
    as -> by reflexivity.
  by rewrite add_warnings_nil.
Qed.

(** X14.  Pages of channels are read back in order.  For every list of
    channel ids that [Channel(url)] accepts, a first page whose item section
    lists those channels and whose continuation item holds a token parses to
    the channels of those ids, in that order, with that token, and logs
    nothing; so does a continuation page, whose token is [None] when it has
    no continuation item.  When [Channel(url)] raises on one of the ids, the
    page raises that exception at the first such id and returns none of the
    channels. *)
Theorem channel_pages_are_read_back token refinements st :
  (forall ids,
     Forall (fun id => Channel_rejects (ChannelUrl (JStr id)) = None) ids ->
     parse_page
       (initial_page [item_section (map channel_entry ids);
                      continuation_item token] refinements) st
     = (OK (Some (map channel_result ids), token), st)
     /\ parse_page (continuation_page [item_section (map channel_entry ids)]) st
        = (OK (Some (map channel_result ids), JNull), st)
     /\ parse_page
          (continuation_page [continuation_item token;
                              item_section (map channel_entry ids)]) st
        = (OK (Some (map channel_result ids), token), st))
  /\ (forall before id after name,
        Forall (fun id => Channel_rejects (ChannelUrl (JStr id)) = None)
          before ->
        Channel_rejects (ChannelUrl (JStr id)) = Some name ->
        parse_page
          (initial_page
             [item_section (map channel_entry (before ++ id :: after));
              continuation_item token] refinements) st
        = (Raise (PytubeError name), st)).
Proof.
  split.
  - intros ids Hall.
    unfold parse_page, parse_item_renderer, bind, lift, ret.
    repeat split; simpl; by rewrite parse_channel_entries.
  - intros before id after name Hbefore Hid.
    unfold parse_page, parse_item_renderer, bind, lift, ret. simpl.
    by rewrite (parse_rejected_channel _ _ _ name).
Qed.

End VideosAndChannels2.

(** X14 (instance).  Two channels that are accepted; and a page lost to
    its second entry, whose channel id is empty. *)
Lemma channel_pages_are_read_back_witness :
  parse_page
    (initial_page [item_section (map channel_entry ["UC1"; "UC2"]);
                   continuation_item (JStr "T1")] JNull) (fresh "q" None)
  = (OK (Some [channel_result "UC1"; channel_result "UC2"], JStr "T1"),
     fresh "q" None)
  /\ parse_page
       (initial_page
          [item_section (map channel_entry ["UC1"; ""; "UC2"]);
           continuation_item (JStr "T1")] JNull) (fresh "q" None)
     = (Raise (PytubeError "RegexMatchError"), fresh "q" None).
Proof.
  split.
  - apply (proj1 (channel_pages_are_read_back
                    (JStr "T1") JNull (fresh "q" None))
             ["UC1"; "UC2"]).
    repeat constructor.
  - apply (proj2 (channel_pages_are_read_back
                    (JStr "T1") JNull (fresh "q" None))
             ["UC1"] "" ["UC2"] "RegexMatchError").
    + repeat constructor.
    + reflexivity.
Defined.

(** * Further facts: view-count text and metadata *)

Section ViewCountText.

Context {env : Environment}.

Lemma split_spaces t : all_space t = true -> py_split t = [].
Proof.
  unfold py_split, all_space.
  induction t as [|c t IH]; simpl; [done|].
  intros [Hc Ht]%andb_prop. rewrite Hc. simpl. by apply IH.
Qed.

Lemma remove_commas_digits d :
  remove_commas (NilEmpty.string_of_uint d) = NilEmpty.string_of_uint d.
Proof. induction d; simpl; [done|..]; by rewrite IHd. Qed.

Lemma digits_value_of_decimal n :
  digits_value false 0 (decimal n) = Some (Z.of_nat n).
Proof.
  unfold decimal. change 0%Z with (Z.of_nat 0). rewrite digits_value_decimal.
  pose proof (Unsigned.of_to n) as Hn. unfold Nat.of_uint in Hn.
  pose proof (to_uint_not_nil n) as Hnil.
  destruct (Nat.to_uint n) eqn:Hd; [done|by rewrite Hn..].
Qed.

Lemma py_int_negative n :
  py_int (String "-" (decimal n))
  = if too_many_digits (String.length (decimal n)) then Raise ValueError
    else OK (- Z.of_nat n)%Z.
Proof.
  unfold py_int.
  assert (Hstrip : rstrip (lstrip (String "-" (decimal n)))
                   = String "-" (decimal n)).
  { simpl. unfold decimal. rewrite rstrip_digits. by rewrite andb_false_r. }
  rewrite Hstrip. cbn [count_digits]. unfold digit_of at 1. simpl.
  rewrite digits_value_of_decimal. unfold decimal.
  by rewrite count_digits_uint.
Qed.

(** X15.  Edges of the view-count text.  A text that is empty or all
    whitespace raises [IndexError] (there is no first word); a value that is
    not a string raises [AttributeError]; and a first word that is a minus
    sign followed by a decimal number is accepted and gives a negative
    count, unless the number has more digits than [int] accepts, which
    raises [ValueError]. *)
Theorem view_count_text_edges :
  (forall t, all_space t = true ->
             view_count_of_text (JStr t) = Raise IndexError)
  /\ (forall v, (forall t, v <> JStr t) ->
                view_count_of_text v = Raise AttributeError)
  /\ (forall n rest,
        view_count_of_text (JStr (String "-" (decimal n) +:+ String " " rest))
        = if too_many_digits (String.length (decimal n))
          then Raise ValueError
          else OK (- Z.of_nat n)%Z).
Proof.
  repeat split.
  - intros t Ht. unfold view_count_of_text. by rewrite split_spaces.
  - intros v Hv. destruct v; try done. by destruct (Hv s).
  - intros n rest.
    assert (Hcommas : remove_commas (String "-" (decimal n))
                      = String "-" (decimal n)).
    { simpl. unfold decimal. by rewrite remove_commas_digits. }
    rewrite view_count_of_first_word.
    + rewrite Hcommas. simpl. apply py_int_negative.
    + unfold no_space. simpl. apply digit_string_not_space.
    + by rewrite Hcommas.
Qed.

End ViewCountText.

(** X15 (instance).  Three spaces, a number, and a negative count. *)
Lemma view_count_text_edges_witness :
  view_count_of_text (JStr "   ") = Raise IndexError
  /\ view_count_of_text (JNum 12) = Raise AttributeError
  /\ view_count_of_text (JStr "-5 views") = OK (-5)%Z.
Proof.
  destruct view_count_text_edges as (Hspace & Hother & Hminus).
  split; [|split].
  - apply Hspace. reflexivity.
  - apply Hother. discriminate.
  - apply (Hminus 5 "views").
Defined.

Section ViewCountText2.

Context {env : Environment}.

Lemma supplier_keys key : supplier key <> None -> In key metadata_keys.
Proof.
  unfold supplier, metadata_keys.
  destruct (String.eqb_spec key "viewCount") as [->|]; [simpl; by auto|].
  destruct (String.eqb_spec key "title") as [->|]; [simpl; by auto|].
  destruct (String.eqb_spec key "relativeDate") as [->|]; [simpl; by auto|].
  destruct (String.eqb_spec key "description") as [->|]; [simpl; by auto 6|].
  done.
Qed.

Lemma last_supplied_keys key actions v :
  last_supplied key actions = Some v -> In key metadata_keys.
Proof.
  induction actions as [|action rest IH]; simpl; [done|].
  destruct (last_supplied key rest); [by auto|].
  unfold supplied. intros Hs. apply supplier_keys.
  by destruct (supplier key).
Qed.

(** X16.  The parsed mapping never holds a key other than [viewCount],
    [title], [relativeDate] and [description], and the object keeps the
    metadata it was built from unchanged. *)
Theorem parsed_keys metadata obj :
  YouTubeMetadata_init metadata = OK obj ->
  _raw_metadata obj = metadata
  /\ (forall key v, _metadata obj !! key = Some v -> In key metadata_keys)
  /\ (forall key default,
        ~ In key metadata_keys ->
        YouTubeMetadata_get obj key default = default
        /\ YouTubeMetadata_getitem obj key = Raise KeyError).
Proof.
  unfold YouTubeMetadata_init, __parse_metadata.
  destruct (py_get metadata "actions" (JList [])) as [actions|]; simpl; [|done].
  destruct (py_iter actions) as [action_list|]; simpl; [|done].
  destruct (parse_actions ∅ action_list) as [m|] eqn:Hparse; simpl; [|done].
  intros [= <-]. simpl.
  assert (Hkeys : forall key v, m !! key = Some v -> In key metadata_keys).
  { intros key v. rewrite (parse_actions_lookup _ _ _ key Hparse), lookup_empty.
    destruct (last_supplied key action_list) eqn:Hlast; [|done].
    intros _. by eapply last_supplied_keys. }
  split; [done|split; [exact Hkeys|]].
  intros key default Hnot.
  unfold YouTubeMetadata_get, YouTubeMetadata_getitem. simpl.
  destruct (m !! key) eqn:Hm; [|done]. by destruct (Hnot (Hkeys _ _ Hm)).
Qed.

End ViewCountText2.

(** X16 (instance).  The key [author] is never there. *)
Lemma parsed_keys_witness :
  YouTubeMetadata_get
    (mkYouTubeMetadata (JDict retitled_twice)
       (<["title" := JStr "second title"]> ∅))
    "author" JNull
  = JNull.
Proof.
  apply (parsed_keys (JDict retitled_twice)).
  - vm_compute. reflexivity.
  - unfold metadata_keys. simpl. intros [H|[H|[H|[H|[]]]]]; discriminate H.
Defined.

Section ViewCountText3.

Context {env : Environment}.

Lemma run_texts_of_text_runs texts :
  run_texts (map text_run texts) = OK (map JStr texts).
Proof. induction texts as [|t texts IH]; simpl; [done|]. by rewrite IH. Qed.

Lemma join_empty_strings texts :
  join_empty (map JStr texts) = OK (concat_strings texts).
Proof. induction texts as [|t texts IH]; simpl; [done|]. by rewrite IH. Qed.

Lemma store_if_absent name key value action (m : gmap string json) :
  py_in name action = OK false -> store_if name key value action m = OK m.
Proof. unfold store_if. by intros ->. Qed.

Lemma parse_unrelated_actions actions : forall m : gmap string json,
  Forall (fun action =>
            Forall (fun name => py_in name action = OK false) update_actions)
    actions ->
  parse_actions m actions = OK m.
Proof.
  induction actions as [|action rest IH]; intros m Hall; simpl; [done|].
  inversion Hall as [|? ? Haction Hrest]; subst.
  unfold update_actions in Haction.
  inversion Haction as [|? ? H1 Haction1]; subst.
  inversion Haction1 as [|? ? H2 Haction2]; subst.
  inversion Haction2 as [|? ? H3 Haction3]; subst.
  inversion Haction3 as [|? ? H4 _]; subst.
  unfold parse_action.
  rewrite (store_if_absent _ _ _ _ _ H1). simpl.
  rewrite (store_if_absent _ _ _ _ _ H2). simpl.
  rewrite (store_if_absent _ _ _ _ _ H3). simpl.
  rewrite (store_if_absent _ _ _ _ _ H4). simpl.
  by apply IH.
Qed.

Lemma join_empty_not_strings texts :
  Exists (fun t => is_str t = false) texts -> join_empty texts = Raise TypeError.
Proof.
  induction texts as [|t texts IH]; intros Hsome;
    inversion Hsome as [? ? Ht|? ? Hrest]; subst.
  - by destruct t.
  - destruct t; simpl; try done. by rewrite IH.
Qed.

Lemma parse_actions_app before after : forall m : gmap string json,
  parse_actions m (before ++ after)
  = let? m' := parse_actions m before in parse_actions m' after.
Proof.
  induction before as [|action before IH]; intros m; simpl; [done|].
  destruct (parse_action m action); simpl; [apply IH|done].
Qed.

(** X17.  The description is the concatenation of the texts of the runs, in
    order, and the empty string when there is no run.  When every run has a
    text and one of the texts is not a string, whatever it is, reading the
    description raises [TypeError]; when reading the text of a run raises (a
    run without [text] raises [KeyError]), that exception is raised, also
    when another text is not a string.  An action that carries the
    description update only and whose description cannot be read makes the
    constructor raise the same exception. *)
Theorem description_is_joined texts :
  description_of (description_action texts) = OK (JStr (concat_strings texts))
  /\ (forall obj,
        YouTubeMetadata_init
          (JDict [("actions", JList [description_action texts])]) = OK obj ->
        YouTubeMetadata_get obj "description" JNull
        = JStr (concat_strings texts))
  /\ (forall action runs items found,
        py_path action description_path = OK runs ->
        py_iter runs = OK items ->
        run_texts items = OK found ->
        Exists (fun t => is_str t = false) found ->
        description_of action = Raise TypeError)
  /\ (forall action runs items e,
        py_path action description_path = OK runs ->
        py_iter runs = OK items ->
        run_texts items = Raise e ->
        description_of action = Raise e)
  /\ (forall d before action after (m : gmap string json) e,
        assoc "actions" d = Some (JList (before ++ action :: after)) ->
        parse_actions ∅ before = OK m ->
        Forall (fun name => py_in name action = OK false)
          ["updateViewershipAction"; "updateTitleAction"; "updateDateAction"] ->
        py_in "updateDescriptionAction" action = OK true ->
        description_of action = Raise e ->
        YouTubeMetadata_init (JDict d) = Raise e).
Proof.
  assert (Hdesc : description_of (description_action texts)
                  = OK (JStr (concat_strings texts))).
  { unfold description_of, description_action. simpl.
    rewrite run_texts_of_text_runs. simpl. by rewrite join_empty_strings. }
  split; [exact Hdesc|split; [|split; [|split]]].
  - intros obj. unfold YouTubeMetadata_init, __parse_metadata. simpl.
    unfold parse_action, store_if. simpl. rewrite Hdesc. simpl.
    intros [= <-]. unfold YouTubeMetadata_get. simpl.
    by rewrite lookup_insert_eq.
  - intros action runs items found Hruns Hitems Hfound Hsome.
    unfold description_of. fold description_path.
    rewrite Hruns. simpl. rewrite Hitems. simpl. rewrite Hfound. simpl.
    by rewrite join_empty_not_strings.
  - intros action runs items e Hruns Hitems Hfound.
    unfold description_of. fold description_path.
    rewrite Hruns. simpl. rewrite Hitems. simpl. by rewrite Hfound.
  - intros d before action after m e Hactions Hbefore Hother Hin Hfail.
    unfold YouTubeMetadata_init, __parse_metadata. simpl.
    rewrite Hactions. simpl. rewrite parse_actions_app, Hbefore. simpl.
    inversion Hother as [|? ? H1 Hother1]; subst.
    inversion Hother1 as [|? ? H2 Hother2]; subst.
    inversion Hother2 as [|? ? H3 _]; subst.
    unfold parse_action.
    rewrite (store_if_absent _ _ _ _ _ H1). simpl.
    rewrite (store_if_absent _ _ _ _ _ H2). simpl.
    rewrite (store_if_absent _ _ _ _ _ H3). simpl.
    unfold store_if. rewrite Hin. simpl. by rewrite Hfail.
Qed.

End ViewCountText3.

(** X17 (instance).  Two runs; a text that is a number after one that is a
    string; and a run without text after one whose text is a number. *)
Lemma description_is_joined_witness :
  YouTubeMetadata_get
    (mkYouTubeMetadata
       (JDict [("actions", JList [description_action ["Hello, "; "world"] ])])
       (<["description" := JStr "Hello, world"]> ∅))
    "description" JNull
  = JStr "Hello, world"
  /\ description_of
       (description_update [text_run "Hello"; JDict [("text", JNum 5)] ])
     = Raise TypeError
  /\ YouTubeMetadata_init
       (JDict [("actions",
                JList [title_action "a title";
                       description_update [JDict [("text", JNum 5)];
                                           JDict [] ] ])])
     = Raise KeyError.
Proof.
  destruct (description_is_joined ["Hello, "; "world"])
    as (_ & Hjoined & Htype & Hkey & Hinit).
  split; [|split].
  - apply Hjoined. vm_compute. reflexivity.
  - apply (Htype
             (description_update [text_run "Hello"; JDict [("text", JNum 5)] ])
             (JList [text_run "Hello"; JDict [("text", JNum 5)] ])
             [text_run "Hello"; JDict [("text", JNum 5)] ]
             [JStr "Hello"; JNum 5]); try reflexivity.
    apply Exists_cons_tl, Exists_cons_hd. reflexivity.
  - apply (Hinit _ [title_action "a title"]
             (description_update [JDict [("text", JNum 5)]; JDict [] ]) []
             (<["title" := JStr "a title"]> ∅) KeyError).
    + reflexivity.
    + vm_compute. reflexivity.
    + repeat constructor.
    + reflexivity.
    + apply (Hkey
               (description_update [JDict [("text", JNum 5)]; JDict [] ])
               (JList [JDict [("text", JNum 5)]; JDict [] ])
               [JDict [("text", JNum 5)]; JDict [] ] KeyError); reflexivity.
Defined.

Section ViewCountText4.

Context {env : Environment}.

(** X18.  What the constructor does with input it has no use for.  Actions
    that carry none of the four update keys are ignored and leave the
    mapping empty; an [actions] value that cannot be iterated (a number,
    a boolean, [None]) raises [TypeError]; metadata that is not a dict
    raises [AttributeError]. *)
Theorem constructor_on_other_input :
  (forall d actions,
     assoc "actions" d = Some (JList actions) ->
     Forall (fun action =>
               Forall (fun name => py_in name action = OK false) update_actions)
       actions ->
     YouTubeMetadata_init (JDict d) = OK (mkYouTubeMetadata (JDict d) ∅))
  /\ (forall d actions,
        assoc "actions" d = Some actions ->
        match actions with
        | JNull | JBool _ | JNum _ => True
        | _ => False
        end ->
        YouTubeMetadata_init (JDict d) = Raise TypeError)
  /\ (forall metadata,
        is_dict metadata = false ->
        YouTubeMetadata_init metadata = Raise AttributeError).
Proof.
  unfold YouTubeMetadata_init, __parse_metadata. repeat split.
  - intros d actions Hd Hall. simpl. rewrite Hd. simpl.
    by rewrite parse_unrelated_actions.
  - intros d actions Hd Hkind. simpl. rewrite Hd.
    by destruct actions.
  - intros metadata Hdict. by destruct metadata.
Qed.

End ViewCountText4.

(** X18 (instance).  One unrelated action, and a number for [actions]. *)
Lemma constructor_on_other_input_witness :
  YouTubeMetadata_init
    (JDict [("actions", JList [JDict [("updateToggleButtonTextAction", JNull)] ])])
  = OK (mkYouTubeMetadata
          (JDict [("actions",
                   JList [JDict [("updateToggleButtonTextAction", JNull)] ])])
          ∅)
  /\ YouTubeMetadata_init (JDict [("actions", JNum 3)]) = Raise TypeError
  /\ YouTubeMetadata_init (JList []) = Raise AttributeError.
Proof.
  destruct constructor_on_other_input as (Hignored & Hiter & Hdict).
  split; [|split].
  - apply (Hignored _ [JDict [("updateToggleButtonTextAction", JNull)] ]);
      [reflexivity|]. repeat constructor.
  - apply (Hiter _ (JNum 3)); [reflexivity|exact I].
  - apply Hdict. reflexivity.
Defined.

